(** * The Heroku "Governor" app (heroku-app/index.js)

    One Express endpoint, [POST /sfdc-audit-log], validates a shared secret
    and appends the received audit logs to an in-memory array; a timer-driven
    worker, [processQueue], takes one log from the front of that array every
    [THROTTLE_DELAY_MS] and posts it to a Slack webhook, putting it back at
    the front when the post throws.

    The development has three layers:
    - [Js]: the fragment of JavaScript values and abstract operations the
      file relies on (truthiness, string conversion, property reads, the
      array methods used on the queue);
    - the program itself: configuration, state, the request handler, the
      message formatter, [postToSlack] and [processQueue], the latter two
      split at their [await] points;
    - the event loop: request, timer and fetch-settlement events over a
      logical clock in milliseconds. *)

From Stdlib Require Import List String Ascii ZArith Bool Lia DecimalString.
Import ListNotations.
Local Open Scope string_scope.
Local Open Scope Z_scope.
Local Set Warnings "-register-all".

(** ** JavaScript values *)

Module Js.

(** Values that reach the program: what [JSON.parse] produces, plus
    [undefined] for a property that is not there.  Numbers are the safe
    integers, those of magnitude at most 2^53 - 1, which JavaScript holds
    exactly and prints digit for digit; fractions and larger numbers are
    outside the model. *)
Inductive JsVal : Type :=
| JUndefined
| JNull
| JBool (b : bool)
| JNum (n : Z)
| JStr (s : string)
| JArr (elems : list JsVal)
| JObj (props : list (string * JsVal)).

(** Exceptions.  [TypeError] is raised by the language itself, [Error] by
    [throw new Error(..)], [FetchError] is a rejected [fetch]. *)
Inductive JsError : Type :=
| TypeError (msg : string)
| Error (msg : string)
| FetchError (msg : string).

Definition message (e : JsError) : string :=
  match e with
  | TypeError m | Error m | FetchError m => m
  end.

(** Result of evaluating something that may throw. *)
Inductive Completion (A : Type) : Type :=
| Normal (a : A)
| Throw (e : JsError).
Arguments Normal {A} a.
Arguments Throw {A} e.

Definition bind {A B} (c : Completion A) (k : A -> Completion B) : Completion B :=
  match c with
  | Normal a => k a
  | Throw e => Throw e
  end.

Definition throws {A} (c : Completion A) : bool :=
  match c with
  | Normal _ => false
  | Throw _ => true
  end.

(** The line feed written [\n] in the source. *)
Definition nl : string := String (ascii_of_nat 10) EmptyString.

(** Decimal rendering of a number inside a template literal (of a safe
    integer: beyond them JavaScript rounds, and from 1e21 on it prints an
    exponent). *)
Definition Number_toString (n : Z) : string :=
  NilEmpty.string_of_int (Z.to_int n).

(** [!!v] *)
Definition ToBoolean (v : JsVal) : bool :=
  match v with
  | JUndefined | JNull => false
  | JBool b => b
  | JNum n => negb (n =? 0)
  | JStr s => negb (String.eqb s "")
  | JArr _ | JObj _ => true
  end.

(** Own property of an object built by [JSON.parse]; of two members with
    the same name the later one is the one the object keeps. *)
Fixpoint own_property (props : list (string * JsVal)) (k : string) : option JsVal :=
  match props with
  | [] => None
  | (k', v) :: rest =>
      match own_property rest k with
      | Some v' => Some v'
      | None => if String.eqb k' k then Some v else None
      end
  end.

(** [v.k] for the property names the program reads ([token], [logs] and the
    six audit fields): none of them lives on a prototype, so the read is
    [undefined] on everything but an object that has the member, and a
    TypeError on [null] and [undefined]. *)
Definition Get (v : JsVal) (k : string) : Completion JsVal :=
  match v with
  | JUndefined =>
      Throw (TypeError ("Cannot read properties of undefined (reading '" ++ k ++ "')"))
  | JNull =>
      Throw (TypeError ("Cannot read properties of null (reading '" ++ k ++ "')"))
  | JObj props =>
      match own_property props k with
      | Some x => Normal x
      | None => Normal JUndefined
      end
  | JBool _ | JNum _ | JStr _ | JArr _ => Normal JUndefined
  end.

(** [`${v}`].  An array prints its elements separated by commas, with
    [null] and [undefined] elements printed as nothing; a plain object
    prints as [[object Object]] through [Object.prototype.toString], unless
    it has a member called [toString] of its own, which is not callable and
    leaves no way to a primitive. *)
Fixpoint ToString (v : JsVal) : Completion string :=
  match v with
  | JUndefined => Normal "undefined"
  | JNull => Normal "null"
  | JBool true => Normal "true"
  | JBool false => Normal "false"
  | JNum n => Normal (Number_toString n)
  | JStr s => Normal s
  | JArr elems =>
      (fix join (l : list JsVal) : Completion string :=
         match l with
         | [] => Normal ""
         | e :: l' =>
             bind (match e with
                   | JUndefined | JNull => Normal ""
                   | _ => ToString e
                   end)
               (fun a =>
                  match l' with
                  | [] => Normal a
                  | _ :: _ => bind (join l') (fun b => Normal (a ++ "," ++ b))
                  end)
         end) elems
  | JObj props =>
      match own_property props "toString" with
      | Some _ => Throw (TypeError "Cannot convert object to primitive value")
      | None => Normal "[object Object]"
      end
  end.

(** [a || b] *)
Definition or_else (a b : JsVal) : JsVal :=
  if ToBoolean a then a else b.

(** [a === b].  Objects and arrays are equal only to themselves; the one
    comparison in the program has a configuration value on its right, which
    is never an object, so two of them never meet here. *)
Definition StrictEquals (a b : JsVal) : bool :=
  match a, b with
  | JUndefined, JUndefined => true
  | JNull, JNull => true
  | JBool x, JBool y => Bool.eqb x y
  | JNum x, JNum y => x =? y
  | JStr x, JStr y => String.eqb x y
  | _, _ => false
  end.

(** [Array.isArray(v)] *)
Definition Array_isArray (v : JsVal) : bool :=
  match v with
  | JArr _ => true
  | _ => false
  end.

(** The elements of an array value. *)
Definition Array_elems (v : JsVal) : list JsVal :=
  match v with
  | JArr elems => elems
  | _ => []
  end.

(** The array methods used on the queue, on the array's contents:
    [a.reverse()], [a.push(...items)], [a.unshift(x)], and [a.shift()],
    which gives the removed first element ([undefined] when there is none)
    and what is left. *)
Definition Array_reverse (a : list JsVal) : list JsVal := rev a.
Definition Array_push (a items : list JsVal) : list JsVal := a ++ items.
Definition Array_unshift (a : list JsVal) (x : JsVal) : list JsVal := x :: a.
Definition Array_shift (a : list JsVal) : JsVal * list JsVal :=
  match a with
  | [] => (JUndefined, [])
  | x :: rest => (x, rest)
  end.

End Js.
Import Js.

Notation "x <- c ;; k" := (bind c (fun x => k))
  (at level 61, c at next level, right associativity).

(** ** Configuration (index.js, lines 15-20) *)

(** The three configuration variables the program reads from
    [process.env]; each is a string or is not set. *)
Record Env : Type := {
  PORT : option string;
  SLACK_WEBHOOK_URL : option string;
  SALESFORCE_SECURITY_TOKEN : option string
}.

(** The value of [process.env.X]. *)
Definition env_value (x : option string) : JsVal :=
  match x with
  | Some s => JStr s
  | None => JUndefined
  end.

Definition THROTTLE_DELAY_MS : Z := 1100.

(** [const PORT = process.env.PORT || 3000;] (line 17; [or_else] is
    declared with the other operators of [Js]). *)
Definition PORT_value (env : Env) : JsVal :=
  or_else (env_value (PORT env)) (JNum 3000).

(** ** Program state *)

Inductive Level : Type := LError | LWarn | LInfo | LLog.

(** A call of [fetch]: its first argument, and the [message] object whose
    [JSON.stringify] is the body of the request. *)
Record FetchCall : Type := {
  fetch_url : JsVal;
  fetch_message : JsVal
}.

(** [messageQueue] is the array of line 26.  [console] collects what was
    written, oldest first.  [timer] is the time at which the pending
    [setTimeout(processQueue, ..)] is due.  [awaiting] is the log that
    [processQueue] holds while it is suspended at [await postToSlack(log)]
    with the [fetch] still pending.  [attempted] and [fetched] record, oldest
    first, the arguments of the calls of [postToSlack] and of [fetch]. *)
Record State : Type := {
  messageQueue : list JsVal;
  console : list (Level * string);
  timer : option Z;
  awaiting : option JsVal;
  attempted : list JsVal;
  fetched : list FetchCall
}.

Definition set_queue (q : list JsVal) (st : State) : State :=
  {| messageQueue := q; console := console st; timer := timer st;
     awaiting := awaiting st; attempted := attempted st; fetched := fetched st |}.

Definition write (lv : Level) (line : string) (st : State) : State :=
  {| messageQueue := messageQueue st; console := console st ++ [(lv, line)];
     timer := timer st; awaiting := awaiting st; attempted := attempted st;
     fetched := fetched st |}.

Definition set_timer (t : option Z) (st : State) : State :=
  {| messageQueue := messageQueue st; console := console st; timer := t;
     awaiting := awaiting st; attempted := attempted st; fetched := fetched st |}.

Definition set_awaiting (a : option JsVal) (st : State) : State :=
  {| messageQueue := messageQueue st; console := console st; timer := timer st;
     awaiting := a; attempted := attempted st; fetched := fetched st |}.

Definition note_attempt (log : JsVal) (st : State) : State :=
  {| messageQueue := messageQueue st; console := console st; timer := timer st;
     awaiting := awaiting st; attempted := attempted st ++ [log];
     fetched := fetched st |}.

Definition note_fetch (c : FetchCall) (st : State) : State :=
  {| messageQueue := messageQueue st; console := console st; timer := timer st;
     awaiting := awaiting st; attempted := attempted st;
     fetched := fetched st ++ [c] |}.

(** The state when the process starts: nothing queued, nothing scheduled. *)
Definition boot : State :=
  {| messageQueue := []; console := []; timer := None; awaiting := None;
     attempted := []; fetched := [] |}.

(** ** The Salesforce endpoint (index.js, lines 34-64) *)

Record HttpReply : Type := {
  reply_status : Z;
  reply_body : string
}.

(** [const { token, logs } = req.body;] *)
Definition destructure_body (body : JsVal) : Completion (JsVal * JsVal) :=
  match body with
  | JUndefined =>
      Throw (TypeError
        "Cannot destructure property 'token' of 'req.body' as it is undefined.")
  | JNull =>
      Throw (TypeError
        "Cannot destructure property 'token' of 'req.body' as it is null.")
  | _ =>
      token <- Get body "token" ;;
      logs <- Get body "logs" ;;
      Normal (token, logs)
  end.

(** The handler of [POST /sfdc-audit-log], for a request whose parsed body
    is [body].  It gives the new state and the reply sent, or the exception
    that escapes to Express. *)
Definition post_sfdc_audit_log (env : Env) (body : JsVal) (st : State)
  : State * Completion HttpReply :=
  match destructure_body body with
  | Throw e => (st, Throw e)
  | Normal (token, logs) =>
      if negb (ToBoolean (env_value (SALESFORCE_SECURITY_TOKEN env))) then
        (write LError "CRITICAL: SALESFORCE_SECURITY_TOKEN is not set in Heroku." st,
         Normal {| reply_status := 500; reply_body := "Server configuration error." |})
      else if negb (ToBoolean token)
              || negb (StrictEquals token (env_value (SALESFORCE_SECURITY_TOKEN env))) then
        (write LWarn "Invalid token received. Rejecting request." st,
         Normal {| reply_status := 401; reply_body := "Unauthorized: Invalid token." |})
      else if negb (ToBoolean logs)
              || negb (Array_isArray logs)
              || (Z.of_nat (List.length (Array_elems logs)) =? 0) then
        (write LInfo "Received valid token but no logs. Payload was empty." st,
         Normal {| reply_status := 202; reply_body := "Accepted. No logs to process." |})
      else
        let logsToQueue := Array_reverse (Array_elems logs) in
        let st1 := set_queue (Array_push (messageQueue st) logsToQueue) st in
        let st2 :=
          write LLog
            ("Received " ++ Number_toString (Z.of_nat (List.length logsToQueue))
             ++ " logs. New queue size: "
             ++ Number_toString (Z.of_nat (List.length (messageQueue st1))))
            st1 in
        (st2,
         Normal {| reply_status := 202;
                   reply_body :=
                     "Accepted. Queued "
                     ++ Number_toString (Z.of_nat (List.length logsToQueue))
                     ++ " new logs." |})
  end.

(** ** Posting to Slack (index.js, lines 94-123) *)

(** [log.k || 'N/A'] inside the template literal. *)
Definition field_or_NA (log : JsVal) (k : string) : Completion string :=
  v <- Get log k ;;
  ToString (or_else v (JStr "N/A")).

(** The [text] of lines 104-109. *)
Definition slack_text (log : JsVal) : Completion string :=
  action <- field_or_NA log "Action" ;;
  section <- field_or_NA log "Section" ;;
  display <- field_or_NA log "Display" ;;
  user <- field_or_NA log "CreatedByUser" ;;
  date <- field_or_NA log "AuditCreatedDate" ;;
  delegate <- field_or_NA log "DelegateUser" ;;
  Normal ("*Action:* " ++ action ++ nl
          ++ "*Section:* " ++ section ++ nl
          ++ "*Display:* " ++ display ++ nl
          ++ "*Created By User:* " ++ user ++ nl
          ++ "*Created Date:* " ++ date ++ nl
          ++ "*Delegate User:* " ++ delegate).

(** The [message] object of line 103. *)
Definition slack_message (log : JsVal) : Completion JsVal :=
  text <- slack_text log ;;
  Normal (JObj [("text", JStr text)]).

(** What [fetch] resolves to: the status of the answer, and what
    [await response.text()] gives, the body or the error met reading it. *)
Record Response : Type := {
  status : Z;
  text : Completion string
}.

(** [response.ok], as node-fetch defines it: the status is in 200..299. *)
Definition ok (r : Response) : bool :=
  (200 <=? status r) && (status r <? 300).

(** How the awaited [fetch] settles. *)
Inductive FetchResult : Type :=
| Rejected (e : JsError)
| Responded (r : Response).

(** [postToSlack] up to its first suspension: it returns at line 98, or
    throws while building the message, or calls [fetch] and waits. *)
Inductive PostStart : Type :=
| PostReturns (lines : list (Level * string))
| PostThrows (e : JsError)
| PostFetches (call : FetchCall).

Definition postToSlack (env : Env) (log : JsVal) : PostStart :=
  if negb (ToBoolean (env_value (SLACK_WEBHOOK_URL env))) then
    PostReturns
      [(LError, "CRITICAL: SLACK_WEBHOOK_URL is not set. Cannot post to Slack.")]
  else
    match slack_message log with
    | Throw e => PostThrows e
    | Normal message =>
        PostFetches
          {| fetch_url := env_value (SLACK_WEBHOOK_URL env);
             fetch_message := message |}
    end.

(** [postToSlack] from the point where the [fetch] has settled
    (lines 119-123). *)
Definition postToSlack_resume (r : FetchResult) : Completion unit :=
  match r with
  | Rejected e => Throw e
  | Responded resp =>
      if negb (ok resp) then
        body <- text resp ;;
        Throw (Error ("Slack API error: " ++ Number_toString (status resp)
                      ++ " " ++ body))
      else Normal tt
  end.

(** ** The drip worker (index.js, lines 68-90) *)

(** The text of line 81. *)
Definition posted_line (log : JsVal) : Completion string :=
  action <- Get log "Action" ;;
  action_text <- ToString action ;;
  user <- Get log "CreatedByUser" ;;
  user_text <- ToString user ;;
  Normal ("Posted log to Slack: " ++ action_text ++ " by " ++ user_text).

(** [setTimeout(processQueue, THROTTLE_DELAY_MS)] called at time [now]. *)
Definition setTimeout_processQueue (now : Z) (st : State) : State :=
  set_timer (Some (now + THROTTLE_DELAY_MS)) st.

Definition write_all (lines : list (Level * string)) (st : State) : State :=
  fold_left (fun s l => write (fst l) (snd l) s) lines st.

(** Lines 80-89 from the moment [postToSlack(log)] has settled with
    [posted], at time [now]: the rest of the [try], the [catch], and the
    scheduling of the next run. *)
Definition processQueue_settled (now : Z) (log : JsVal)
    (posted : Completion unit) (st : State) : State :=
  let st1 :=
    match (_ <- posted ;; posted_line log) with
    | Normal line => write LLog line st
    | Throw e =>
        let st' :=
          write LError
            ("Failed to post log to Slack. Re-queueing. Error: " ++ message e) st in
        set_queue (Array_unshift (messageQueue st') log) st'
    end in
  setTimeout_processQueue now st1.

(** [processQueue()] entered at time [now], run until it returns or is
    suspended on a pending [fetch]. *)
Definition processQueue (env : Env) (now : Z) (st : State) : State :=
  let st := set_timer None st in
  if Z.of_nat (List.length (messageQueue st)) =? 0 then
    setTimeout_processQueue now st
  else
    let (log, rest) := Array_shift (messageQueue st) in
    let st := note_attempt log (set_queue rest st) in
    match postToSlack env log with
    | PostReturns lines =>
        processQueue_settled now log (Normal tt) (write_all lines st)
    | PostThrows e =>
        processQueue_settled now log (Throw e) st
    | PostFetches call =>
        set_awaiting (Some log) (note_fetch call st)
    end.

(** The suspended [processQueue] continued at time [now], when the pending
    [fetch] settles with [r]. *)
Definition processQueue_resume (now : Z) (r : FetchResult) (st : State) : State :=
  match awaiting st with
  | None => st
  | Some log =>
      processQueue_settled now log (postToSlack_resume r) (set_awaiting None st)
  end.

(** The callback of [app.listen] (lines 126-131), run at time [now] when
    the server has started: it writes the port and enters the worker once.
    (Were the port not printable the callback would throw before line 130;
    a port is a string or 3000, so this does not happen.) *)
Definition listen (env : Env) (now : Z) : State :=
  match ToString (PORT_value env) with
  | Normal port =>
      processQueue env now
        (write LLog ("Salesforce Audit Log Service listening on port " ++ port) boot)
  | Throw _ => boot
  end.

(** ** The event loop *)

(** What can happen to the running process: a request arrives, the timer
    set by [setTimeout] fires, the pending [fetch] settles. *)
Inductive Event : Type :=
| Request (body : JsVal)
| Timer
| Settled (r : FetchResult).

(** One event at time [now]; [None] when the event cannot occur in [st]
    (no timer due, no fetch pending). *)
Definition step (env : Env) (now : Z) (ev : Event) (st : State) : option State :=
  match ev with
  | Request body => Some (fst (post_sfdc_audit_log env body st))
  | Timer =>
      match timer st with
      | Some due => if due <=? now then Some (processQueue env now st) else None
      | None => None
      end
  | Settled r =>
      match awaiting st with
      | Some _ => Some (processQueue_resume now r st)
      | None => None
      end
  end.

Fixpoint run (env : Env) (trace : list (Z * Event)) (st : State) : option State :=
  match trace with
  | [] => Some st
  | (now, ev) :: trace' =>
      match step env now ev st with
      | Some st' => run env trace' st'
      | None => None
      end
  end.

(** A whole tick with nothing in between: [processQueue] entered at [now],
    and, if it waits for a [fetch], the answer [r] arriving [latency]
    milliseconds later. *)
Definition tick (env : Env) (now : Z) (r : FetchResult) (latency : Z)
    (st : State) : State :=
  let st1 := processQueue env now st in
  match awaiting st1 with
  | Some _ => processQueue_resume (now + latency) r st1
  | None => st1
  end.

(** Consecutive ticks, each with the time it starts at, the way its fetch
    settles and the time that takes. *)
Fixpoint ticks (env : Env) (plan : list (Z * FetchResult * Z)) (st : State) : State :=
  match plan with
  | [] => st
  | (now, r, latency) :: plan' => ticks env plan' (tick env now r latency st)
  end.

(** The [try] block of lines 79-81 for [log], when a fetch it makes settles
    with [r]: the line it prints, or what it throws into the [catch]. *)
Definition attempt (env : Env) (log : JsVal) (r : FetchResult) : Completion string :=
  match postToSlack env log with
  | PostReturns _ => posted_line log
  | PostThrows e => Throw e
  | PostFetches _ => _ <- postToSlack_resume r ;; posted_line log
  end.

(** ** Vocabulary of the statements *)

(** Requests served one after the other. *)
Definition posts (env : Env) (bodies : list JsVal) (st : State) : State :=
  fold_left (fun s body => fst (post_sfdc_audit_log env body s)) bodies st.

(** A request body that can be read and whose token is not [secret]
    (a body without a token is one of them). *)
Definition wrong_token (secret : string) (body : JsVal) : Prop :=
  exists token logs,
    destructure_body body = Normal (token, logs) /\ token <> JStr secret.

(** [n] calls of [shift()]: what they gave, in order, and what is left. *)
Fixpoint shift_n (n : nat) (q : list JsVal) : list JsVal * list JsVal :=
  match n with
  | O => ([], q)
  | S n' =>
      let (x, q') := Array_shift q in
      let (xs, q'') := shift_n n' q' in
      (x :: xs, q'')
  end.

(** The fetch was answered, with a status in 200..299. *)
Definition delivered (r : FetchResult) : bool :=
  match r with
  | Rejected _ => false
  | Responded resp => ok resp
  end.

(** The webhook address is set (and not empty). *)
Definition webhook_set (env : Env) : bool :=
  ToBoolean (env_value (SLACK_WEBHOOK_URL env)).

(** A log record as Salesforce sends it: an object all of whose members
    are strings. *)
Definition string_members (props : list (string * JsVal)) : bool :=
  forallb (fun kv => match snd kv with JStr _ => true | _ => false end) props.

Definition is_LogRecord (log : JsVal) : bool :=
  match log with
  | JObj props => string_members props
  | _ => false
  end.

(** [shown] is how member [k] of a log record with members [props] is to
    appear in the message: as its text, or as N/A when there is no such
    member. *)
Definition renders_member (props : list (string * JsVal)) (k shown : string) : Prop :=
  (own_property props k = None -> shown = "N/A")
  /\ (forall s, own_property props k = Some (JStr s) -> s <> "" -> shown = s).

(** One line of the message. *)
Definition message_line (label value : string) : string :=
  "*" ++ label ++ ":* " ++ value.

(** The history of the service as a sequence of rounds: a request is
    served, or the worker runs one whole tick. *)
Inductive Round : Type :=
| Ingest (body : JsVal)
| Drip (now : Z) (r : FetchResult) (latency : Z).

Definition play_round (env : Env) (round : Round) (st : State) : State :=
  match round with
  | Ingest body => fst (post_sfdc_audit_log env body st)
  | Drip now r latency => tick env now r latency st
  end.

Definition play (env : Env) (rounds : list Round) (st : State) : State :=
  fold_left (fun s round => play_round env round s) rounds st.

(** Every delivery attempt made while [rounds] are played from [st] fails:
    each tick that finds a log at the head ends in the [catch]. *)
Fixpoint every_attempt_fails (env : Env) (rounds : list Round) (st : State) : Prop :=
  match rounds with
  | [] => True
  | round :: rounds' =>
      match round, messageQueue st with
      | Drip _ r _, log :: _ => throws (attempt env log r) = true
      | _, _ => True
      end
      /\ every_attempt_fails env rounds' (play_round env round st)
  end.

(** ** Vocabulary of the statements about whole runs *)

(** The worker is in one of its two resting states: a timer is set and no
    fetch is pending, or a fetch is pending and no timer is set. *)
Definition worker_state_ok (st : State) : bool :=
  match timer st, awaiting st with
  | Some _, None => true
  | None, Some _ => true
  | _, _ => false
  end.

(** What the request with body [body] adds to the queue. *)
Definition queued (env : Env) (body : JsVal) : list JsVal :=
  messageQueue (fst (post_sfdc_audit_log env body boot)).

(** Everything the requests of a trace add to the queue, in order. *)
Fixpoint accepted (env : Env) (trace : list (Z * Event)) : list JsVal :=
  match trace with
  | [] => []
  | (_, Request body) :: trace' => (queued env body ++ accepted env trace')%list
  | _ :: trace' => accepted env trace'
  end.

(** The records the process holds: the one the worker has taken out and is
    posting, if any, and then the queue. *)
Definition pending (st : State) : list JsVal :=
  (match awaiting st with
   | Some log => [log]
   | None => []
   end ++ messageQueue st)%list.

(** How many fetches of a trace settled with a 2xx answer. *)
Fixpoint deliveries (trace : list (Z * Event)) : nat :=
  match trace with
  | [] => O
  | (_, Settled r) :: trace' =>
      ((if delivered r then 1 else 0) + deliveries trace')%nat
  | _ :: trace' => deliveries trace'
  end.

(** A value that a template literal can print: no object with a member
    [toString] of its own in it, at the top or inside arrays. *)
Fixpoint printable (v : JsVal) : bool :=
  match v with
  | JArr elems =>
      (fix all (l : list JsVal) : bool :=
         match l with
         | [] => true
         | e :: l' => printable e && all l'
         end) elems
  | JObj props =>
      match own_property props "toString" with
      | Some _ => false
      | None => true
      end
  | _ => true
  end.

(** The six members of a log that go into the message. *)
Definition message_members : list string :=
  ["Action"; "Section"; "Display"; "CreatedByUser"; "AuditCreatedDate";
   "DelegateUser"].

(** A log from which the message can be built: it is not [null] or
    [undefined], and each of the six members is falsy or printable. *)
Definition formattable (log : JsVal) : bool :=
  forallb
    (fun k =>
       match Get log k with
       | Normal v => negb (ToBoolean v) || printable v
       | Throw _ => false
       end)
    message_members.

(** A fetch call as the worker makes them in state [st]: the webhook is
    set and is the address, and the message is the one built from a record
    the worker has attempted. *)
Definition fetch_of_attempted (env : Env) (st : State) (call : FetchCall) : Prop :=
  webhook_set env = true
  /\ fetch_url call = env_value (SLACK_WEBHOOK_URL env)
  /\ exists log text,
       In log (attempted st)
       /\ slack_text log = Normal text
       /\ fetch_message call = JObj [("text", JStr text)].

(** ** Sample data used by the examples *)

Definition export_by_alice : JsVal :=
  JObj [("Action", JStr "Export"); ("CreatedByUser", JStr "alice")].

Definition login_by_bob : JsVal :=
  JObj [("Action", JStr "Login"); ("CreatedByUser", JStr "bob")].

Definition delete_by_carol : JsVal :=
  JObj [("Action", JStr "Delete"); ("Section", JStr "Users");
        ("CreatedByUser", JStr "carol")].

Definition configured : Env :=
  {| PORT := Some "5000";
     SLACK_WEBHOOK_URL := Some "https://hooks.slack.example/services/T0";
     SALESFORCE_SECURITY_TOKEN := Some "S3CR3T" |}.

Definition no_webhook : Env :=
  {| PORT := None;
     SLACK_WEBHOOK_URL := None;
     SALESFORCE_SECURITY_TOKEN := Some "S3CR3T" |}.

Definition empty_secret : Env :=
  {| PORT := Some "5000";
     SLACK_WEBHOOK_URL := Some "https://hooks.slack.example/services/T0";
     SALESFORCE_SECURITY_TOKEN := Some "" |}.

Definition request_body (token : string) (logs : list JsVal) : JsVal :=
  JObj [("token", JStr token); ("logs", JArr logs)].

Definition slack_ok : FetchResult :=
  Responded {| status := 200; text := Normal "ok" |}.

Definition slack_down : FetchResult :=
  Responded {| status := 503; text := Normal "upstream unavailable" |}.

(** A sample run after the start at time 0: the first tick finds nothing,
    a batch of two arrives, the next tick takes the older record and waits
    for Slack, a second batch arrives meanwhile, Slack answers 503, and the
    retry at the following tick is answered 200. *)
Definition sample_trace : list (Z * Event) :=
  [(1100, Timer);
   (1500, Request (request_body "S3CR3T" [export_by_alice; login_by_bob]));
   (2200, Timer);
   (2300, Request (request_body "S3CR3T" [delete_by_carol]));
   (2900, Settled slack_down);
   (4000, Timer);
   (4100, Settled slack_ok)].

Definition sample_outcome : State :=
  Eval vm_compute in
    match run configured sample_trace (listen configured 0) with
    | Some st => st
    | None => boot
    end.

(** The end-to-end scenarios of the endpoint. *)
Example scenario_two_logs :
  post_sfdc_audit_log configured
    (request_body "S3CR3T" [export_by_alice; login_by_bob]) boot
  = ({| messageQueue := [login_by_bob; export_by_alice];
        console := [(LLog, "Received 2 logs. New queue size: 2")];
        timer := None; awaiting := None; attempted := []; fetched := [] |},
     Normal {| reply_status := 202;
               reply_body := "Accepted. Queued 2 new logs." |}).
Proof. reflexivity. Qed.

Example scenario_no_token :
  let '(st, reply) :=
    post_sfdc_audit_log configured (JObj [("logs", JArr [export_by_alice])]) boot in
  messageQueue st = []
  /\ reply = Normal {| reply_status := 401;
                       reply_body := "Unauthorized: Invalid token." |}.
Proof. split; reflexivity. Qed.

Example scenario_empty_logs :
  let '(st, reply) :=
    post_sfdc_audit_log configured (request_body "S3CR3T" []) boot in
  messageQueue st = []
  /\ reply = Normal {| reply_status := 202;
                       reply_body := "Accepted. No logs to process." |}.
Proof. split; reflexivity. Qed.

(** Where the sample run ends: the first record of the first batch was
    posted on the second try, the other two are waiting in order. *)
Example sample_outcome_held :
  run configured sample_trace (listen configured 0) = Some sample_outcome
  /\ pending sample_outcome = [export_by_alice; delete_by_carol]
  /\ accepted configured sample_trace
     = [login_by_bob; export_by_alice; delete_by_carol]
  /\ attempted sample_outcome = [login_by_bob; login_by_bob]
  /\ timer sample_outcome = Some 5200.
Proof. vm_compute. repeat split; reflexivity. Qed.

(** String conversion inside a template literal, on values that are not
    strings. *)
Example ToString_of_array :
  ToString (JArr [JNum 1; JNull; JStr "x"; JArr [JBool true; JObj []]])
  = Normal "1,,x,true,[object Object]".
Proof. reflexivity. Qed.

Example ToString_of_object_with_toString_member :
  ToString (JObj [("toString", JStr "x")])
  = Throw (TypeError "Cannot convert object to primitive value").
Proof. reflexivity. Qed.

(** A [null] among the logs is queued like any other element; the worker's
    attempt on it throws before anything is posted, so it goes back to the
    head. *)
Example null_log_is_requeued :
  let st := tick configured 0 slack_ok 100 (set_queue [JNull; login_by_bob] boot) in
  messageQueue st = [JNull; login_by_bob]
  /\ fetched st = []
  /\ console st
     = [(LError,
         "Failed to post log to Slack. Re-queueing. Error: Cannot read properties of null (reading 'Action')")].
Proof. repeat split; reflexivity. Qed.

(** ** The endpoint: what it answers and what it queues *)

Section Endpoint.

Variable env : Env.

Lemma secret_truthy (secret : string) :
  secret <> "" -> ToBoolean (JStr secret) = true.
Proof.
  intros Hne. simpl. apply negb_true_iff. now apply String.eqb_neq.
Qed.

Lemma StrictEquals_string (v : JsVal) (s : string) :
  StrictEquals v (JStr s) = true <-> v = JStr s.
Proof.
  split.
  - destruct v; simpl; try discriminate.
    intros H. apply String.eqb_eq in H. now subst.
  - intros ->. simpl. apply String.eqb_refl.
Qed.

Lemma StrictEquals_string_false (v : JsVal) (s : string) :
  v <> JStr s -> StrictEquals v (JStr s) = false.
Proof.
  intros Hne. destruct (StrictEquals v (JStr s)) eqn:E; [|reflexivity].
  apply StrictEquals_string in E. contradiction.
Qed.

(** An exception while reading the body leaves the state alone. *)
Lemma post_throwing_body (body : JsVal) (st : State) (e : JsError) :
  destructure_body body = Throw e ->
  post_sfdc_audit_log env body st = (st, Throw e).
Proof. intros H. unfold post_sfdc_audit_log. now rewrite H. Qed.

(** First check: the secret is unset or empty. *)
Lemma post_without_secret (body : JsVal) (st : State) (token logs : JsVal) :
  ToBoolean (env_value (SALESFORCE_SECURITY_TOKEN env)) = false ->
  destructure_body body = Normal (token, logs) ->
  post_sfdc_audit_log env body st
  = (write LError "CRITICAL: SALESFORCE_SECURITY_TOKEN is not set in Heroku." st,
     Normal {| reply_status := 500; reply_body := "Server configuration error." |}).
Proof.
  intros Hs Hb. unfold post_sfdc_audit_log. now rewrite Hb, Hs.
Qed.

(** Second check: the token is not the secret. *)
Lemma post_wrong_token (body : JsVal) (st : State) (secret : string)
    (token logs : JsVal) :
  SALESFORCE_SECURITY_TOKEN env = Some secret -> secret <> "" ->
  destructure_body body = Normal (token, logs) ->
  token <> JStr secret ->
  post_sfdc_audit_log env body st
  = (write LWarn "Invalid token received. Rejecting request." st,
     Normal {| reply_status := 401; reply_body := "Unauthorized: Invalid token." |}).
Proof.
  intros Hs Hne Hb Ht. unfold post_sfdc_audit_log. rewrite Hb, Hs.
  cbn [env_value]. rewrite (secret_truthy _ Hne). cbn [negb].
  rewrite (StrictEquals_string_false _ _ Ht). now rewrite orb_true_r.
Qed.


(** Past the three checks: the batch goes to the tail, reversed. *)
Lemma post_queues_batch (body : JsVal) (st : State) (secret : string)
    (batch : list JsVal) :
  SALESFORCE_SECURITY_TOKEN env = Some secret -> secret <> "" ->
  destructure_body body = Normal (JStr secret, JArr batch) ->
  batch <> [] ->
  post_sfdc_audit_log env body st
  = (write LLog
       ("Received " ++ Number_toString (Z.of_nat (List.length (rev batch)))
        ++ " logs. New queue size: "
        ++ Number_toString (Z.of_nat (List.length (messageQueue st ++ rev batch))))
       (set_queue (messageQueue st ++ rev batch)%list st),
     Normal {| reply_status := 202;
               reply_body :=
                 "Accepted. Queued "
                 ++ Number_toString (Z.of_nat (List.length (rev batch)))
                 ++ " new logs." |}).
Proof.
  intros Hs Hne Hb Hl. unfold post_sfdc_audit_log. rewrite Hb, Hs.
  cbn [env_value]. rewrite (secret_truthy _ Hne). cbn [negb orb].
  replace (StrictEquals (JStr secret) (JStr secret)) with true
    by (symmetry; now apply StrictEquals_string).
  cbn [negb ToBoolean Array_isArray Array_elems orb].
  destruct batch as [|r batch]; [contradiction|].
  reflexivity.
Qed.

(** Whatever the request, the handler never touches the worker's side of
    the state. *)
Lemma post_keeps_worker_state (body : JsVal) (st : State) :
  let st' := fst (post_sfdc_audit_log env body st) in
  timer st' = timer st /\ awaiting st' = awaiting st
  /\ attempted st' = attempted st /\ fetched st' = fetched st.
Proof.
  unfold post_sfdc_audit_log.
  destruct (destructure_body body) as [[token logs]|e]; [|now cbn].
  repeat match goal with
         | |- context [if ?c then _ else _] => destruct c
         end; now cbn.
Qed.

(** What a request adds to the queue does not depend on the state: the
    queue after it is the queue before it followed by what it added. *)
Lemma post_extends_queue (body : JsVal) :
  exists added, forall st,
    messageQueue (fst (post_sfdc_audit_log env body st))
    = (messageQueue st ++ added)%list.
Proof.
  unfold post_sfdc_audit_log.
  destruct (destructure_body body) as [[token logs]|e];
    [|exists []; intros st; cbn; now rewrite app_nil_r].
  repeat match goal with
         | |- context [if ?c then _ else _] => destruct c
         end;
    try (exists []; intros st; cbn; now rewrite app_nil_r).
  eexists. intros st. cbn. reflexivity.
Qed.

End Endpoint.

(** ** Claims about the endpoint *)

Lemma shift_n_all (q : list JsVal) :
  shift_n (List.length q) q = (q, []).
Proof.
  induction q as [|x q IH]; [reflexivity|].
  cbn [List.length shift_n Array_shift]. now rewrite IH.
Qed.

Lemma posts_wrong_token (env : Env) (secret : string) (bodies : list JsVal) :
  SALESFORCE_SECURITY_TOKEN env = Some secret -> secret <> "" ->
  Forall (wrong_token secret) bodies ->
  forall st, messageQueue (posts env bodies st) = messageQueue st.
Proof.
  intros Hs Hne Hall. induction Hall as [|body bodies Hw _ IH]; intros st.
  - reflexivity.
  - unfold posts in *. cbn [fold_left]. rewrite IH.
    destruct Hw as (token & logs & Hb & Ht).
    now rewrite (post_wrong_token env body st secret token logs Hs Hne Hb Ht).
Qed.

(** C2.  With the right token and a batch that is not empty, the handler
    appends the reversed batch at the tail of the queue: the queue is the
    old one followed by the batch backwards, it is longer by the size of
    the batch, and taking everything out with [shift()] gives the older
    content and then the batch from its last record to its first; for a
    batch [r1, r2, r3] put into an empty queue, three [shift()] calls give
    r3, r2, r1. *)
Theorem ingest_appends_reversed_batch
    (env : Env) (body : JsVal) (st : State) (secret : string) (batch : list JsVal) :
  SALESFORCE_SECURITY_TOKEN env = Some secret -> secret <> "" ->
  destructure_body body = Normal (JStr secret, JArr batch) ->
  batch <> [] ->
  let st' := fst (post_sfdc_audit_log env body st) in
  messageQueue st' = (messageQueue st ++ rev batch)%list
  /\ List.length (messageQueue st')
     = (List.length (messageQueue st) + List.length batch)%nat
  /\ shift_n (List.length (messageQueue st) + List.length batch) (messageQueue st')
     = ((messageQueue st ++ rev batch)%list, [])
  /\ (forall r1 r2 r3,
        batch = [r1; r2; r3] -> messageQueue st = [] ->
        shift_n 3 (messageQueue st') = ([r3; r2; r1], [])).
Proof.
  intros Hs Hne Hb Hl st'.
  assert (Hq : messageQueue st' = (messageQueue st ++ rev batch)%list).
  { subst st'. now rewrite (post_queues_batch env body st secret batch Hs Hne Hb Hl). }
  assert (Hlen : List.length (messageQueue st')
                 = (List.length (messageQueue st) + List.length batch)%nat).
  { rewrite Hq, length_app, length_rev. reflexivity. }
  repeat split.
  - exact Hq.
  - exact Hlen.
  - rewrite <- Hlen, Hq. apply shift_n_all.
  - intros r1 r2 r3 -> Hempty. rewrite Hq, Hempty. reflexivity.
Qed.

Lemma ingest_appends_reversed_batch_witness :
  SALESFORCE_SECURITY_TOKEN configured = Some "S3CR3T"
  /\ "S3CR3T" <> ""
  /\ destructure_body
       (request_body "S3CR3T" [export_by_alice; login_by_bob; delete_by_carol])
     = Normal (JStr "S3CR3T", JArr [export_by_alice; login_by_bob; delete_by_carol])
  /\ [export_by_alice; login_by_bob; delete_by_carol] <> []
  /\ shift_n 3
       (messageQueue
          (fst (post_sfdc_audit_log configured
                  (request_body "S3CR3T"
                     [export_by_alice; login_by_bob; delete_by_carol])
                  boot)))
     = ([delete_by_carol; login_by_bob; export_by_alice], []).
Proof.
  assert (H1 : SALESFORCE_SECURITY_TOKEN configured = Some "S3CR3T") by reflexivity.
  assert (H2 : "S3CR3T" <> "") by discriminate.
  assert (H3 : destructure_body
                 (request_body "S3CR3T" [export_by_alice; login_by_bob; delete_by_carol])
               = Normal (JStr "S3CR3T",
                         JArr [export_by_alice; login_by_bob; delete_by_carol]))
    by reflexivity.
  assert (H4 : [export_by_alice; login_by_bob; delete_by_carol] <> [])
    by discriminate.
  refine (conj H1 (conj H2 (conj H3 (conj H4 _)))).
  apply (ingest_appends_reversed_batch configured _ boot "S3CR3T" _ H1 H2 H3 H4);
    reflexivity.
Defined.







(** C9.  A secret that is the empty string counts as no secret: every
    request whose body can be read, also one whose token is the empty
    string, is answered 500 "Server configuration error."; no request is
    answered anything but 500, and none changes the queue. *)
Theorem empty_secret_is_unconfigured (env : Env) (body : JsVal) (st : State) :
  SALESFORCE_SECURITY_TOKEN env = None \/ SALESFORCE_SECURITY_TOKEN env = Some "" ->
  let result := post_sfdc_audit_log env body st in
  (forall token logs,
     destructure_body body = Normal (token, logs) ->
     snd result
     = Normal {| reply_status := 500; reply_body := "Server configuration error." |})
  /\ (forall reply, snd result = Normal reply -> reply_status reply = 500)
  /\ messageQueue (fst result) = messageQueue st.
Proof.
  intros Hs result. subst result.
  assert (Hf : ToBoolean (env_value (SALESFORCE_SECURITY_TOKEN env)) = false)
    by (destruct Hs as [-> | ->]; reflexivity).
  destruct (destructure_body body) as [[token logs]|e] eqn:Hb.
  - rewrite (post_without_secret env body st token logs Hf Hb). cbn [fst snd].
    split; [reflexivity|]. split; [|reflexivity].
    intros reply [= <-]. reflexivity.
  - rewrite (post_throwing_body env body st e Hb). cbn [fst snd].
    split; [discriminate|]. split; [discriminate|reflexivity].
Qed.

Lemma empty_secret_is_unconfigured_witness :
  (SALESFORCE_SECURITY_TOKEN empty_secret = None
   \/ SALESFORCE_SECURITY_TOKEN empty_secret = Some "")
  /\ snd (post_sfdc_audit_log empty_secret (request_body "" [export_by_alice])
            (set_queue [login_by_bob] boot))
     = Normal {| reply_status := 500; reply_body := "Server configuration error." |}
  /\ messageQueue
       (fst (post_sfdc_audit_log empty_secret (request_body "" [export_by_alice])
               (set_queue [login_by_bob] boot)))
     = [login_by_bob].
Proof.
  assert (Hs : SALESFORCE_SECURITY_TOKEN empty_secret = None
               \/ SALESFORCE_SECURITY_TOKEN empty_secret = Some "")
    by (right; reflexivity).
  refine (conj Hs _).
  destruct (empty_secret_is_unconfigured empty_secret
              (request_body "" [export_by_alice])
              (set_queue [login_by_bob] boot) Hs) as (H500 & _ & Hq).
  split.
  - apply (H500 (JStr "") (JArr [export_by_alice])). reflexivity.
  - exact Hq.
Defined.

(** ** The worker: one tick *)

Lemma write_all_fields (lines : list (Level * string)) (st : State) :
  messageQueue (write_all lines st) = messageQueue st
  /\ timer (write_all lines st) = timer st
  /\ awaiting (write_all lines st) = awaiting st
  /\ attempted (write_all lines st) = attempted st
  /\ fetched (write_all lines st) = fetched st.
Proof.
  revert st. induction lines as [|l lines IH]; intros st; [now cbn|].
  cbn [write_all fold_left]. fold (write_all lines (write (fst l) (snd l) st)).
  destruct (IH (write (fst l) (snd l) st)) as (H1 & H2 & H3 & H4 & H5).
  now rewrite H1, H2, H3, H4, H5.
Qed.

(** What the end of a tick does to each part of the state. *)
Lemma settled_fields (now : Z) (log : JsVal) (posted : Completion unit) (st : State) :
  messageQueue (processQueue_settled now log posted st)
  = (if throws (_ <- posted ;; posted_line log)
     then log :: messageQueue st else messageQueue st)
  /\ timer (processQueue_settled now log posted st) = Some (now + THROTTLE_DELAY_MS)
  /\ awaiting (processQueue_settled now log posted st) = awaiting st
  /\ attempted (processQueue_settled now log posted st) = attempted st
  /\ fetched (processQueue_settled now log posted st) = fetched st.
Proof.
  unfold processQueue_settled.
  destruct (_ <- posted ;; posted_line log) as [line|e]; now cbn.
Qed.

(** [processQueue] on an empty queue only sets the timer again. *)
Lemma processQueue_on_empty (env : Env) (now : Z) (st : State) :
  messageQueue st = [] ->
  processQueue env now st = setTimeout_processQueue now (set_timer None st).
Proof.
  intros Hq. unfold processQueue. cbn [set_timer messageQueue]. now rewrite Hq.
Qed.

(** [processQueue] on a queue with [log] at its head takes [log] out and
    hands it to [postToSlack]. *)
Lemma processQueue_on_head (env : Env) (now : Z) (st : State)
    (log : JsVal) (rest : list JsVal) :
  messageQueue st = log :: rest ->
  processQueue env now st
  = match postToSlack env log with
    | PostReturns lines =>
        processQueue_settled now log (Normal tt)
          (write_all lines (note_attempt log (set_queue rest (set_timer None st))))
    | PostThrows e =>
        processQueue_settled now log (Throw e)
          (note_attempt log (set_queue rest (set_timer None st)))
    | PostFetches call =>
        set_awaiting (Some log)
          (note_fetch call (note_attempt log (set_queue rest (set_timer None st))))
    end.
Proof.
  intros Hq. unfold processQueue. cbn [set_timer messageQueue]. rewrite Hq.
  reflexivity.
Qed.

(** A tick that finds the queue empty changes nothing but the timer. *)
Lemma tick_on_empty_queue (env : Env) (now latency : Z) (r : FetchResult) (st : State) :
  awaiting st = None -> messageQueue st = [] ->
  tick env now r latency st = setTimeout_processQueue now (set_timer None st).
Proof.
  intros Ha Hq. unfold tick. rewrite (processQueue_on_empty env now st Hq).
  cbn [setTimeout_processQueue set_timer awaiting]. now rewrite Ha.
Qed.

(** A tick that finds [log] at the head: [log] is the one record handed to
    [postToSlack]; it is back at the head if the [try] block threw and gone
    if it did not; the worker is idle again and the next run is scheduled
    from the moment the attempt was over. *)
Lemma tick_on_head (env : Env) (now latency : Z) (r : FetchResult) (st : State)
    (log : JsVal) (rest : list JsVal) :
  awaiting st = None -> messageQueue st = log :: rest ->
  messageQueue (tick env now r latency st)
  = (if throws (attempt env log r) then log :: rest else rest)
  /\ attempted (tick env now r latency st) = (attempted st ++ [log])%list
  /\ awaiting (tick env now r latency st) = None
  /\ timer (tick env now r latency st)
     = Some (match postToSlack env log with
             | PostFetches _ => now + latency + THROTTLE_DELAY_MS
             | _ => now + THROTTLE_DELAY_MS
             end)
  /\ fetched (tick env now r latency st)
     = match postToSlack env log with
       | PostFetches call => (fetched st ++ [call])%list
       | _ => fetched st
       end.
Proof.
  intros Ha Hq. unfold tick, attempt.
  rewrite (processQueue_on_head env now st log rest Hq).
  set (base := note_attempt log (set_queue rest (set_timer None st))).
  assert (B1 : messageQueue base = rest) by reflexivity.
  assert (B2 : awaiting base = None) by exact Ha.
  assert (B3 : attempted base = (attempted st ++ [log])%list) by reflexivity.
  assert (B4 : fetched base = fetched st) by reflexivity.
  clearbody base.
  destruct (postToSlack env log) as [lines|e|call].
  - destruct (write_all_fields lines base) as (W1 & _ & W3 & W4 & W5).
    destruct (settled_fields now log (Normal tt) (write_all lines base))
      as (H1 & H2 & H3 & H4 & H5).
    rewrite H3, W3, B2. cbv iota.
    rewrite H1, H2, H3, H4, H5, W1, W3, W4, W5, B1, B2, B3, B4.
    cbn [bind]. repeat split; reflexivity.
  - destruct (settled_fields now log (Throw e) base) as (H1 & H2 & H3 & H4 & H5).
    rewrite H3, B2. cbv iota.
    rewrite H1, H2, H3, H4, H5, B1, B2, B3, B4.
    cbn [bind throws]. repeat split; reflexivity.
  - unfold processQueue_resume.
    change (awaiting (set_awaiting (Some log) (note_fetch call base)))
      with (Some log).
    cbv iota.
    match goal with
    | |- context [processQueue_settled ?t log ?p ?s] =>
        destruct (settled_fields t log p s) as (H1 & H2 & H3 & H4 & H5)
    end.
    rewrite H1, H2, H3, H4, H5.
    change (messageQueue (set_awaiting None
              (set_awaiting (Some log) (note_fetch call base))))
      with (messageQueue base).
    change (attempted (set_awaiting None
              (set_awaiting (Some log) (note_fetch call base))))
      with (attempted base).
    change (fetched (set_awaiting None
              (set_awaiting (Some log) (note_fetch call base))))
      with (fetched base ++ [call])%list.
    change (awaiting (set_awaiting None
              (set_awaiting (Some log) (note_fetch call base))))
      with (@None JsVal).
    rewrite B1, B3, B4. repeat split; reflexivity.
Qed.

(** ** When the [try] block throws and when it does not *)

Lemma cons_neq (x : JsVal) (l : list JsVal) : x :: l <> l.
Proof.
  intros H. apply (f_equal (@List.length JsVal)) in H. cbn in H. lia.
Qed.

(** A falsy value can always be printed. *)
Lemma ToString_falsy (v : JsVal) :
  ToBoolean v = false -> exists s, ToString v = Normal s.
Proof.
  destruct v as [| |b|n|s|elems|props]; cbn; try discriminate; eauto.
  destruct b; eauto.
Qed.

(** If [v || 'N/A'] can be printed, so can [v]. *)
Lemma ToString_or_NA (v : JsVal) (s : string) :
  ToString (or_else v (JStr "N/A")) = Normal s -> exists s', ToString v = Normal s'.
Proof.
  unfold or_else. destruct (ToBoolean v) eqn:E; [eauto|].
  intros _. now apply ToString_falsy.
Qed.

(** Whenever the message can be built, line 81 can be printed. *)
Lemma posted_line_of_slack_text (log : JsVal) (t : string) :
  slack_text log = Normal t -> exists line, posted_line log = Normal line.
Proof.
  unfold slack_text, posted_line, field_or_NA.
  destruct (Get log "Action") as [a|e]; [|discriminate]. cbn [bind].
  destruct (ToString (or_else a (JStr "N/A"))) as [sa|e] eqn:Ea; [|discriminate].
  cbn [bind].
  destruct (Get log "Section") as [b|e]; [|discriminate]. cbn [bind].
  destruct (ToString (or_else b (JStr "N/A"))) as [sb|e]; [|discriminate].
  cbn [bind].
  destruct (Get log "Display") as [c|e]; [|discriminate]. cbn [bind].
  destruct (ToString (or_else c (JStr "N/A"))) as [sc|e]; [|discriminate].
  cbn [bind].
  destruct (Get log "CreatedByUser") as [u|e]; [|discriminate]. cbn [bind].
  destruct (ToString (or_else u (JStr "N/A"))) as [su|e] eqn:Eu; [|discriminate].
  intros _.
  destruct (ToString_or_NA a sa Ea) as [sa' ->].
  destruct (ToString_or_NA u su Eu) as [su' ->].
  cbn [bind]. eauto.
Qed.

Lemma own_property_string (props : list (string * JsVal)) (k : string) (v : JsVal) :
  string_members props = true -> own_property props k = Some v ->
  exists s, v = JStr s.
Proof.
  induction props as [|[k' v'] props IH]; [discriminate|].
  cbn [string_members forallb snd own_property]. intros Hall.
  apply andb_true_iff in Hall. destruct Hall as [Hv Hrest].
  destruct (own_property props k) as [w|] eqn:E.
  - intros [= <-]. now apply IH.
  - destruct (String.eqb k' k); [|discriminate].
    intros [= <-]. destruct v'; try discriminate. eauto.
Qed.

(** Reading a member of a log record gives a string or [undefined]. *)
Lemma Get_LogRecord (log : JsVal) (k : string) :
  is_LogRecord log = true ->
  Get log k = Normal JUndefined \/ exists s, Get log k = Normal (JStr s).
Proof.
  destruct log as [| |b|n|s|elems|props]; try discriminate.
  cbn [is_LogRecord Get]. intros Hall.
  destruct (own_property props k) as [v|] eqn:E; [|now left].
  destruct (own_property_string props k v Hall E) as [s ->]. right. eauto.
Qed.

(** Line 81 never throws on a log record. *)
Lemma posted_line_LogRecord (log : JsVal) :
  is_LogRecord log = true -> exists line, posted_line log = Normal line.
Proof.
  intros Hlog. unfold posted_line.
  destruct (Get_LogRecord log "Action" Hlog) as [-> | [a ->]];
    destruct (Get_LogRecord log "CreatedByUser" Hlog) as [-> | [u ->]];
    cbn; eauto.
Qed.

(** A fetch that is not answered with a 2xx status makes [postToSlack]
    throw, whether or not the body of the answer can be read. *)
Lemma resume_not_delivered (r : FetchResult) :
  delivered r = false -> exists e, postToSlack_resume r = Throw e.
Proof.
  destruct r as [e|resp]; cbn [delivered postToSlack_resume]; [eauto|].
  intros ->. cbn [negb]. destruct (text resp) as [body|e]; cbn [bind]; eauto.
Qed.

(** With the webhook set, an attempt whose fetch is not answered with a
    2xx status throws. *)
Lemma attempt_not_delivered (env : Env) (log : JsVal) (r : FetchResult) :
  webhook_set env = true -> delivered r = false ->
  throws (attempt env log r) = true.
Proof.
  unfold webhook_set, attempt, postToSlack. intros -> Hr. cbn [negb].
  destruct (slack_message log) as [m|e]; [|reflexivity].
  now destruct (resume_not_delivered r Hr) as [e ->].
Qed.

(** With the webhook set, an attempt that does not throw was answered
    with a 2xx status. *)
Lemma attempt_normal_delivered (env : Env) (log : JsVal) (r : FetchResult) :
  webhook_set env = true -> throws (attempt env log r) = false ->
  delivered r = true.
Proof.
  intros Hw Hn. destruct (delivered r) eqn:E; [reflexivity|].
  rewrite (attempt_not_delivered env log r Hw E) in Hn. discriminate.
Qed.

(** Without the webhook, the attempt is line 81 alone. *)
Lemma attempt_without_webhook (env : Env) (log : JsVal) (r : FetchResult) :
  webhook_set env = false -> attempt env log r = posted_line log.
Proof.
  unfold webhook_set, attempt, postToSlack. now intros ->.
Qed.

Lemma postToSlack_without_webhook (env : Env) (log : JsVal) :
  webhook_set env = false ->
  postToSlack env log
  = PostReturns
      [(LError, "CRITICAL: SLACK_WEBHOOK_URL is not set. Cannot post to Slack.")].
Proof.
  unfold webhook_set, postToSlack. now intros ->.
Qed.

(** ** The worker: many ticks *)

Lemma repeat_snoc (x : JsVal) (n : nat) :
  (repeat x n ++ [x])%list = x :: repeat x n.
Proof.
  induction n as [|n IH]; [reflexivity|]. cbn. now rewrite IH.
Qed.

(** As long as the attempts for the head keep failing, the queue stays as
    it is and the head is the record attempted at every tick. *)
Lemma ticks_failing (env : Env) (log : JsVal) (rest : list JsVal)
    (plan : list (Z * FetchResult * Z)) :
  Forall (fun p => throws (attempt env log (snd (fst p))) = true) plan ->
  forall st,
    awaiting st = None -> messageQueue st = log :: rest ->
    messageQueue (ticks env plan st) = log :: rest
    /\ attempted (ticks env plan st)
       = (attempted st ++ repeat log (List.length plan))%list
    /\ awaiting (ticks env plan st) = None.
Proof.
  intros Hall. induction Hall as [|[[now r] latency] plan Hp _ IH]; intros st Ha Hq.
  - cbn. now rewrite app_nil_r.
  - cbn [ticks List.length repeat]. cbn [fst snd] in Hp.
    destruct (tick_on_head env now latency r st log rest Ha Hq)
      as (T1 & T2 & T3 & _ & _).
    rewrite Hp in T1.
    destruct (IH _ T3 T1) as (I1 & I2 & I3).
    rewrite I1, I2, I3, T2, <- app_assoc. cbn. repeat split; reflexivity.
Qed.

(** Requests served while the worker waits add to the tail and leave the
    worker's side of the state alone. *)
Lemma posts_extend_queue (env : Env) (bodies : list JsVal) :
  exists added, forall st,
    messageQueue (posts env bodies st) = (messageQueue st ++ added)%list
    /\ awaiting (posts env bodies st) = awaiting st
    /\ timer (posts env bodies st) = timer st
    /\ attempted (posts env bodies st) = attempted st.
Proof.
  induction bodies as [|body bodies [added IH]].
  - exists []. intros st. cbn. now rewrite app_nil_r.
  - destruct (post_extends_queue env body) as [added0 H0].
    exists (added0 ++ added)%list. intros st. unfold posts in *. cbn [fold_left].
    destruct (IH (fst (post_sfdc_audit_log env body st))) as (I1 & I2 & I3 & I4).
    destruct (post_keeps_worker_state env body st) as (K1 & K2 & K3 & _).
    rewrite I1, I2, I3, I4, H0, K1, K2, K3, app_assoc. repeat split; reflexivity.
Qed.

(** A failed delivery with requests served while the fetch was pending:
    the record goes back in front of everything, and the queue is what the
    requests alone would have made of it. *)
Lemma failed_delivery_amid_requests (env : Env) (now later : Z) (r : FetchResult)
    (st : State) (log : JsVal) (rest bodies : list JsVal) (call : FetchCall) :
  messageQueue st = log :: rest ->
  postToSlack env log = PostFetches call ->
  delivered r = false ->
  messageQueue
    (processQueue_resume later r (posts env bodies (processQueue env now st)))
  = messageQueue (posts env bodies st).
Proof.
  intros Hq Hp Hr.
  destruct (posts_extend_queue env bodies) as [added Hposts].
  destruct (Hposts st) as (P1 & _). rewrite P1, Hq.
  rewrite (processQueue_on_head env now st log rest Hq), Hp.
  set (mid := set_awaiting (Some log) _).
  destruct (Hposts mid) as (M1 & M2 & _).
  unfold processQueue_resume. rewrite M2.
  change (awaiting mid) with (Some log). cbv iota.
  match goal with
  | |- context [processQueue_settled ?t log ?p ?s] =>
      destruct (settled_fields t log p s) as (H1 & _)
  end.
  rewrite H1.
  replace (throws (_ <- postToSlack_resume r ;; posted_line log)) with true.
  - change (messageQueue (set_awaiting None (posts env bodies mid)))
      with (messageQueue (posts env bodies mid)).
    rewrite M1. reflexivity.
  - now destruct (resume_not_delivered r Hr) as [e ->].
Qed.

(** ** Claims about the worker *)

(** C1, counterexample.  Without a webhook address the worker takes the
    record out of the queue, posts nothing, does not put the record back,
    and goes on to the next record at the next tick: the first record is
    lost, not retried. *)
Lemma missing_webhook_drops_record :
  let st0 := set_queue [export_by_alice; login_by_bob] boot in
  let st1 := tick no_webhook 0 slack_ok 0 st0 in
  let st2 := tick no_webhook 1100 slack_ok 0 st1 in
  webhook_set no_webhook = false
  /\ messageQueue st1 = [login_by_bob]
  /\ messageQueue st1 <> [export_by_alice; login_by_bob]
  /\ attempted st2 = [export_by_alice; login_by_bob]
  /\ fetched st2 = []
  /\ messageQueue st2 = [].
Proof.
  cbv zeta. repeat (split; [reflexivity|]).
  split; [discriminate|]. repeat split; reflexivity.
Qed.

(** C1, amended.  With the webhook address set, the worker loses no
    record: an attempt that does not end in a 2xx answer puts the record
    back at the head, a record leaves the queue only after a 2xx answer,
    and as long as the answers are not 2xx every tick retries the same
    record.  With the webhook address missing, [postToSlack] returns
    without posting and without failing, and the log record taken from the
    queue is gone. *)
Theorem dispatcher_requeues_unless_webhook_missing
    (env : Env) (now latency : Z) (r : FetchResult) (st : State)
    (log : JsVal) (rest : list JsVal) (plan : list (Z * FetchResult * Z)) :
  awaiting st = None -> messageQueue st = log :: rest ->
  (webhook_set env = true ->
     (delivered r = false ->
        messageQueue (tick env now r latency st) = log :: rest)
     /\ (messageQueue (tick env now r latency st) = rest -> delivered r = true)
     /\ (Forall (fun p => delivered (snd (fst p)) = false) plan ->
           messageQueue (ticks env plan st) = log :: rest
           /\ attempted (ticks env plan st)
              = (attempted st ++ repeat log (List.length plan))%list))
  /\ (webhook_set env = false -> is_LogRecord log = true ->
        messageQueue (tick env now r latency st) = rest
        /\ fetched (tick env now r latency st) = fetched st).
Proof.
  intros Ha Hq.
  destruct (tick_on_head env now latency r st log rest Ha Hq)
    as (T1 & _ & _ & _ & T5).
  split.
  - intros Hw. split; [|split].
    + intros Hr. rewrite T1. now rewrite (attempt_not_delivered env log r Hw Hr).
    + intros Hgone. apply (attempt_normal_delivered env log r Hw).
      destruct (throws (attempt env log r)); [|reflexivity].
      rewrite T1 in Hgone. now apply cons_neq in Hgone.
    + intros Hall.
      assert (Hfail : Forall (fun p => throws (attempt env log (snd (fst p))) = true) plan).
      { eapply Forall_impl; [|exact Hall]. intros p Hp.
        now apply attempt_not_delivered. }
      destruct (ticks_failing env log rest plan Hfail st Ha Hq) as (I1 & I2 & _).
      now split.
  - intros Hw Hlog.
    rewrite T1, T5, (attempt_without_webhook env log r Hw),
      (postToSlack_without_webhook env log Hw).
    destruct (posted_line_LogRecord log Hlog) as [line ->]. now split.
Qed.

Lemma dispatcher_requeues_unless_webhook_missing_witness :
  awaiting (set_queue [export_by_alice; login_by_bob] boot) = None
  /\ messageQueue (set_queue [export_by_alice; login_by_bob] boot)
     = export_by_alice :: [login_by_bob]
  /\ messageQueue
       (tick configured 0 slack_down 250
          (set_queue [export_by_alice; login_by_bob] boot))
     = [export_by_alice; login_by_bob]
  /\ messageQueue
       (tick no_webhook 0 slack_down 250
          (set_queue [export_by_alice; login_by_bob] boot))
     = [login_by_bob].
Proof.
  assert (Ha : awaiting (set_queue [export_by_alice; login_by_bob] boot) = None)
    by reflexivity.
  assert (Hq : messageQueue (set_queue [export_by_alice; login_by_bob] boot)
               = export_by_alice :: [login_by_bob]) by reflexivity.
  refine (conj Ha (conj Hq (conj _ _))).
  - exact (proj1 (proj1 (dispatcher_requeues_unless_webhook_missing
                           configured 0 250 slack_down _ _ _ [] Ha Hq) eq_refl)
             eq_refl).
  - exact (proj1 (proj2 (dispatcher_requeues_unless_webhook_missing
                           no_webhook 0 250 slack_down _ _ _ [] Ha Hq)
                    eq_refl eq_refl)).
Defined.

(** C3.  A tick whose delivery fails leaves the queue as it was: from a
    queue [A, B, ..], however many ticks fail, the queue is [A, B, ..]
    again after each and A is the record attempted at each; the first tick
    that succeeds is still an attempt of A, and only it uncovers B. *)
Theorem failed_tick_preserves_order
    (env : Env) (A B : JsVal) (rest : list JsVal)
    (plan : list (Z * FetchResult * Z)) (now latency : Z) (r : FetchResult)
    (st : State) :
  awaiting st = None -> messageQueue st = A :: B :: rest ->
  Forall (fun p => throws (attempt env A (snd (fst p))) = true) plan ->
  (throws (attempt env A r) = true ->
     messageQueue (tick env now r latency st) = messageQueue st)
  /\ messageQueue (ticks env plan st) = A :: B :: rest
  /\ attempted (ticks env plan st)
     = (attempted st ++ repeat A (List.length plan))%list
  /\ (throws (attempt env A r) = false ->
        messageQueue (tick env now r latency (ticks env plan st)) = B :: rest
        /\ attempted (tick env now r latency (ticks env plan st))
           = (attempted st ++ repeat A (List.length plan) ++ [A])%list).
Proof.
  intros Ha Hq Hall.
  destruct (ticks_failing env A (B :: rest) plan Hall st Ha Hq) as (I1 & I2 & I3).
  split; [|split; [exact I1|split; [exact I2|]]].
  - intros Hr.
    destruct (tick_on_head env now latency r st A (B :: rest) Ha Hq) as (T1 & _).
    now rewrite T1, Hr, Hq.
  - intros Hr.
    destruct (tick_on_head env now latency r (ticks env plan st) A (B :: rest) I3 I1)
      as (T1 & T2 & _).
    rewrite T1, T2, Hr, I2, <- app_assoc. now split.
Qed.

Lemma failed_tick_preserves_order_witness :
  awaiting (set_queue [export_by_alice; login_by_bob] boot) = None
  /\ messageQueue (set_queue [export_by_alice; login_by_bob] boot)
     = export_by_alice :: login_by_bob :: []
  /\ Forall (fun p => throws (attempt configured export_by_alice (snd (fst p))) = true)
       [(0, slack_down, 300); (1400, Rejected (FetchError "socket hang up"), 5000)]
  /\ messageQueue
       (ticks configured
          [(0, slack_down, 300); (1400, Rejected (FetchError "socket hang up"), 5000)]
          (set_queue [export_by_alice; login_by_bob] boot))
     = [export_by_alice; login_by_bob]
  /\ attempted
       (tick configured 7500 slack_ok 200
          (ticks configured
             [(0, slack_down, 300); (1400, Rejected (FetchError "socket hang up"), 5000)]
             (set_queue [export_by_alice; login_by_bob] boot)))
     = [export_by_alice; export_by_alice; export_by_alice].
Proof.
  assert (Ha : awaiting (set_queue [export_by_alice; login_by_bob] boot) = None)
    by reflexivity.
  assert (Hq : messageQueue (set_queue [export_by_alice; login_by_bob] boot)
               = export_by_alice :: login_by_bob :: []) by reflexivity.
  assert (Hall : Forall
                   (fun p => throws (attempt configured export_by_alice (snd (fst p))) = true)
                   [(0, slack_down, 300);
                    (1400, Rejected (FetchError "socket hang up"), 5000)])
    by (repeat constructor).
  refine (conj Ha (conj Hq (conj Hall _))).
  destruct (failed_tick_preserves_order configured _ _ _ _ 7500 200 slack_ok _
              Ha Hq Hall) as (_ & Hqueue & _ & Hlast).
  split; [exact Hqueue|].
  exact (proj2 (Hlast eq_refl)).
Defined.

(** A round in which delivery, if attempted, fails does not shorten the
    queue, and leaves the worker idle. *)
Lemma play_round_not_shrinking (env : Env) (round : Round) (st : State) :
  awaiting st = None ->
  match round, messageQueue st with
  | Drip _ r _, log :: _ => throws (attempt env log r) = true
  | _, _ => True
  end ->
  (List.length (messageQueue st)
   <= List.length (messageQueue (play_round env round st)))%nat
  /\ awaiting (play_round env round st) = None.
Proof.
  intros Ha Hfail. destruct round as [body|now r latency]; cbn [play_round].
  - destruct (post_extends_queue env body) as [added Hadd].
    destruct (post_keeps_worker_state env body st) as (_ & K2 & _).
    rewrite Hadd, K2, length_app. split; [lia|exact Ha].
  - destruct (messageQueue st) as [|log rest] eqn:Hq.
    + rewrite (tick_on_empty_queue env now latency r st Ha Hq).
      cbn [setTimeout_processQueue set_timer messageQueue awaiting].
      rewrite Hq. split; [lia|exact Ha].
    + destruct (tick_on_head env now latency r st log rest Ha Hq)
        as (T1 & _ & T3 & _).
      rewrite T1, T3, Hfail. split; [lia|reflexivity].
Qed.

Lemma play_not_shrinking (env : Env) (rounds : list Round) :
  forall st,
    awaiting st = None -> every_attempt_fails env rounds st ->
    (List.length (messageQueue st)
     <= List.length (messageQueue (play env rounds st)))%nat
    /\ awaiting (play env rounds st) = None.
Proof.
  induction rounds as [|round rounds IH]; intros st Ha Hall.
  - cbn. split; [lia|exact Ha].
  - cbn [every_attempt_fails] in Hall. destruct Hall as [Hhere Hrest].
    destruct (play_round_not_shrinking env round st Ha Hhere) as [Hle Ha'].
    destruct (IH _ Ha' Hrest) as [Hle' Ha''].
    unfold play in *. cbn [fold_left]. split; [lia|exact Ha''].
Qed.

Lemma every_attempt_fails_app (env : Env) (pre post : list Round) :
  forall st,
    every_attempt_fails env (pre ++ post) st ->
    every_attempt_fails env pre st
    /\ every_attempt_fails env post (play env pre st).
Proof.
  induction pre as [|round pre IH]; intros st Hall.
  - now split.
  - cbn [app every_attempt_fails] in *. destruct Hall as [Hhere Hrest].
    destruct (IH _ Hrest) as [H1 H2]. unfold play in *. cbn [fold_left].
    now repeat split.
Qed.

(** C5.  The worker never skips the head.  At a tick that finds the queue
    not empty, the head is the one record taken out and the one record
    handed to [postToSlack], and one fetch at most is made, carrying the
    message built from that record; at a tick that finds the queue empty
    nothing is taken or attempted.  A tick whose attempt fails leaves the
    queue as it was, so that while every attempt fails the length of the
    queue never goes down as requests and ticks follow one another. *)
Theorem head_is_never_skipped
    (env : Env) (now latency : Z) (r : FetchResult) (st : State) :
  awaiting st = None ->
  (forall log rest,
     messageQueue st = log :: rest ->
     attempted (tick env now r latency st) = (attempted st ++ [log])%list
     /\ messageQueue (tick env now r latency st)
        = (if throws (attempt env log r) then log :: rest else rest)
     /\ (fetched (tick env now r latency st) = fetched st
         \/ exists text,
              slack_text log = Normal text
              /\ exists url,
                   fetched (tick env now r latency st)
                   = (fetched st
                      ++ [{| fetch_url := url;
                             fetch_message := JObj [("text", JStr text)] |}])%list))
  /\ (messageQueue st = [] ->
        messageQueue (tick env now r latency st) = []
        /\ attempted (tick env now r latency st) = attempted st
        /\ fetched (tick env now r latency st) = fetched st)
  /\ (forall log rest,
        messageQueue st = log :: rest ->
        throws (attempt env log r) = true ->
        messageQueue (tick env now r latency st) = messageQueue st)
  /\ (forall pre post,
        every_attempt_fails env (pre ++ post) st ->
        (List.length (messageQueue st)
         <= List.length (messageQueue (play env pre st)))%nat
        /\ (List.length (messageQueue (play env pre st))
            <= List.length (messageQueue (play env (pre ++ post) st)))%nat).
Proof.
  intros Ha. split; [|split; [|split]].
  - intros log rest Hq.
    destruct (tick_on_head env now latency r st log rest Ha Hq)
      as (T1 & T2 & _ & _ & T5).
    split; [exact T2|]. split; [exact T1|].
    rewrite T5. unfold postToSlack, slack_message.
    destruct (negb (ToBoolean (env_value (SLACK_WEBHOOK_URL env)))); [now left|].
    destruct (slack_text log) as [text|e]; cbn [bind]; [|now left].
    right. exists text. split; [reflexivity|]. eexists. reflexivity.
  - intros Hq. rewrite (tick_on_empty_queue env now latency r st Ha Hq).
    cbn. now rewrite Hq.
  - intros log rest Hq Hr.
    destruct (tick_on_head env now latency r st log rest Ha Hq) as (T1 & _).
    now rewrite T1, Hr, Hq.
  - intros pre post Hall.
    destruct (every_attempt_fails_app env pre post st Hall) as [Hpre Hpost].
    destruct (play_not_shrinking env pre st Ha Hpre) as [Hle Ha'].
    destruct (play_not_shrinking env post _ Ha' Hpost) as [Hle' _].
    unfold play in *. rewrite fold_left_app. split; [exact Hle|exact Hle'].
Qed.

Lemma head_is_never_skipped_witness :
  awaiting (set_queue [export_by_alice] boot) = None
  /\ attempted (tick configured 0 slack_down 300 (set_queue [export_by_alice] boot))
     = [export_by_alice]
  /\ (List.length
        (messageQueue
           (play configured
              [Drip 0 slack_down 300;
               Ingest (request_body "S3CR3T" [login_by_bob; delete_by_carol])]
              (set_queue [export_by_alice] boot)))
      <= List.length
           (messageQueue
              (play configured
                 ([Drip 0 slack_down 300;
                   Ingest (request_body "S3CR3T" [login_by_bob; delete_by_carol])]
                  ++ [Drip 1400 (Rejected (FetchError "socket hang up")) 20])
                 (set_queue [export_by_alice] boot))))%nat.
Proof.
  assert (Ha : awaiting (set_queue [export_by_alice] boot) = None) by reflexivity.
  refine (conj Ha _).
  destruct (head_is_never_skipped configured 0 300 slack_down
              (set_queue [export_by_alice] boot) Ha) as (Hhead & _ & _ & Hmono).
  split.
  - exact (proj1 (Hhead export_by_alice [] eq_refl)).
  - apply Hmono. cbn. repeat split; reflexivity.
Defined.

(** C7, counterexample.  An answer with status 503 whose body cannot be
    read: the delivery fails and the record is put back, but what is
    thrown is the error met reading the body, and the line written for the
    failure holds neither the status nor a body. *)
Lemma unreadable_body_hides_status :
  let resp := {| status := 503; text := Throw (FetchError "Premature close") |} in
  let st :=
    tick configured 0 (Responded resp) 300
      (set_queue [export_by_alice; login_by_bob] boot) in
  (status resp < 200 \/ 300 <= status resp)
  /\ postToSlack_resume (Responded resp) = Throw (FetchError "Premature close")
  /\ messageQueue st = [export_by_alice; login_by_bob]
  /\ console st
     = [(LError,
         "Failed to post log to Slack. Re-queueing. Error: Premature close")]
  /\ String.index 0 "503"
       "Failed to post log to Slack. Re-queueing. Error: Premature close"
     = None.
Proof.
  cbv zeta. split; [right; cbn; lia|]. repeat split; reflexivity.
Qed.

(** C7, amended.  An answer whose status is outside 200..299 is always a
    failed delivery, never a success: [postToSlack] throws, the record goes
    back to the head of the queue and the line for a posted log is not
    written; and whenever the body of the answer can be read, the error
    thrown has a message made of the status and the body of the answer,
    and the line written for the failure ends with that message. *)
Theorem non_2xx_is_failure
    (env : Env) (now latency : Z) (st : State) (log : JsVal) (rest : list JsVal)
    (call : FetchCall) (resp : Response) :
  awaiting st = None -> messageQueue st = log :: rest ->
  postToSlack env log = PostFetches call ->
  status resp < 200 \/ 300 <= status resp ->
  throws (postToSlack_resume (Responded resp)) = true
  /\ throws (attempt env log (Responded resp)) = true
  /\ messageQueue (tick env now (Responded resp) latency st) = log :: rest
  /\ (forall body,
        text resp = Normal body ->
        postToSlack_resume (Responded resp)
        = Throw (Error ("Slack API error: " ++ Number_toString (status resp)
                        ++ " " ++ body))
        /\ console (tick env now (Responded resp) latency st)
           = (console st
              ++ [(LError,
                   ("Failed to post log to Slack. Re-queueing. Error: "
                    ++ "Slack API error: " ++ Number_toString (status resp)
                    ++ " " ++ body)%string)])%list).
Proof.
  intros Ha Hq Hp Hstatus.
  assert (Hok : ok resp = false).
  { unfold ok. apply andb_false_iff. destruct Hstatus; [left|right]; lia. }
  destruct (resume_not_delivered (Responded resp) Hok) as [e He].
  assert (Hthrows : throws (attempt env log (Responded resp)) = true).
  { unfold attempt. now rewrite Hp, He. }
  split; [now rewrite He|]. split; [exact Hthrows|].
  destruct (tick_on_head env now latency (Responded resp) st log rest Ha Hq)
    as (T1 & _).
  split; [now rewrite T1, Hthrows|].
  intros body Hbody.
  assert (Hresume : postToSlack_resume (Responded resp)
                    = Throw (Error ("Slack API error: " ++ Number_toString (status resp)
                                    ++ " " ++ body))).
  { cbn [postToSlack_resume]. now rewrite Hok, Hbody. }
  split; [exact Hresume|].
  unfold tick. rewrite (processQueue_on_head env now st log rest Hq), Hp.
  unfold processQueue_resume.
  change (awaiting (set_awaiting (Some log) _)) with (Some log). cbv iota.
  rewrite Hresume. reflexivity.
Qed.

Lemma non_2xx_is_failure_witness :
  awaiting (set_queue [export_by_alice; login_by_bob] boot) = None
  /\ messageQueue (set_queue [export_by_alice; login_by_bob] boot)
     = export_by_alice :: [login_by_bob]
  /\ (status {| status := 503; text := Normal "upstream unavailable" |} < 200
      \/ 300 <= status {| status := 503; text := Normal "upstream unavailable" |})
  /\ console
       (tick configured 0
          (Responded {| status := 503; text := Normal "upstream unavailable" |})
          300 (set_queue [export_by_alice; login_by_bob] boot))
     = [(LError,
         "Failed to post log to Slack. Re-queueing. Error: Slack API error: 503 upstream unavailable")].
Proof.
  assert (Ha : awaiting (set_queue [export_by_alice; login_by_bob] boot) = None)
    by reflexivity.
  assert (Hq : messageQueue (set_queue [export_by_alice; login_by_bob] boot)
               = export_by_alice :: [login_by_bob]) by reflexivity.
  assert (Hs : status {| status := 503; text := Normal "upstream unavailable" |} < 200
               \/ 300 <= status {| status := 503;
                                    text := Normal "upstream unavailable" |})
    by (right; cbn; lia).
  refine (conj Ha (conj Hq (conj Hs _))).
  destruct (non_2xx_is_failure configured 0 300 _ _ _ _ _ Ha Hq eq_refl Hs)
    as (_ & _ & _ & Hline).
  exact (proj2 (Hline _ eq_refl)).
Defined.

(** ** Claims about the schedule *)

(** While a fetch is pending and does not settle, nothing that happens
    sets the timer or starts another attempt. *)
Lemma pending_fetch_blocks_worker (env : Env) (trace : list (Z * Event)) :
  Forall (fun e => forall r, snd e <> Settled r) trace ->
  forall st st' log,
    awaiting st = Some log -> timer st = None ->
    run env trace st = Some st' ->
    awaiting st' = Some log /\ timer st' = None /\ attempted st' = attempted st.
Proof.
  intros Hall. induction Hall as [|[now ev] trace Hev _ IH]; intros st st' log Ha Ht.
  - cbn. intros [= <-]. now repeat split.
  - cbn [run]. destruct ev as [body| |r].
    + cbn [step].
      destruct (post_keeps_worker_state env body st) as (K1 & K2 & K3 & _).
      intros Hrun.
      destruct (IH (fst (post_sfdc_audit_log env body st)) st' log) as (I1 & I2 & I3);
        try congruence.
      now rewrite I1, I2, I3, K3.
    + cbn [step]. rewrite Ht. discriminate.
    + exfalso. now apply (Hev r).
Qed.

(** C8, counterexample.  The next run is set when the attempt is over, not
    when the tick starts: a delivery that takes five seconds moves the next
    tick to 6100 ms after the start of this one, one that takes 100 ms to
    1200 ms.  Nothing bounds the wait: as long as the fetch is pending no
    timer is set and the timer event cannot occur. *)
Lemma next_tick_waits_for_delivery :
  let st0 := set_queue [export_by_alice] boot in
  timer (tick configured 0 slack_ok 5000 st0) = Some 6100
  /\ timer (tick configured 0 slack_ok 5000 st0) <> Some (0 + THROTTLE_DELAY_MS)
  /\ timer (tick configured 0 slack_ok 100 st0) = Some 1200
  /\ timer (processQueue configured 0 st0) = None
  /\ awaiting (processQueue configured 0 st0) = Some export_by_alice
  /\ run configured [(1100, Timer)] (processQueue configured 0 st0) = None
  /\ run configured [(3600000, Timer)] (processQueue configured 0 st0) = None.
Proof.
  cbv zeta. split; [reflexivity|]. split; [discriminate|].
  repeat split; reflexivity.
Qed.

(** C8, amended.  Every tick that comes to its end sets the next run, and
    sets it when it ends: [THROTTLE_DELAY_MS] after its start if it found
    the queue empty or made no fetch, and [THROTTLE_DELAY_MS] after the
    fetch settled otherwise, that is, its start plus the time the delivery
    took plus [THROTTLE_DELAY_MS], whether the delivery succeeded or not and
    whatever requests were served meanwhile.  No timeout bounds the
    delivery: while the fetch is pending no timer is set, and whatever
    happens short of the fetch settling, none is set and no other record is
    attempted. *)
Theorem next_tick_follows_delivery
    (env : Env) (now latency : Z) (r : FetchResult) (st : State) :
  awaiting st = None ->
  (messageQueue st = [] ->
     timer (tick env now r latency st) = Some (now + THROTTLE_DELAY_MS))
  /\ (forall log rest,
        messageQueue st = log :: rest ->
        (forall lines, postToSlack env log = PostReturns lines ->
           timer (tick env now r latency st) = Some (now + THROTTLE_DELAY_MS))
        /\ (forall e, postToSlack env log = PostThrows e ->
              timer (tick env now r latency st) = Some (now + THROTTLE_DELAY_MS))
        /\ (forall call, postToSlack env log = PostFetches call ->
              timer (tick env now r latency st)
              = Some (now + latency + THROTTLE_DELAY_MS)
              /\ timer (processQueue env now st) = None
              /\ awaiting (processQueue env now st) = Some log
              /\ (forall trace st',
                    Forall (fun e => forall r', snd e <> Settled r') trace ->
                    run env trace (processQueue env now st) = Some st' ->
                    awaiting st' = Some log /\ timer st' = None
                    /\ attempted st' = (attempted st ++ [log])%list)
              /\ (forall bodies later,
                    timer (processQueue_resume later r
                             (posts env bodies (processQueue env now st)))
                    = Some (later + THROTTLE_DELAY_MS)))).
Proof.
  intros Ha. split.
  - intros Hq. now rewrite (tick_on_empty_queue env now latency r st Ha Hq).
  - intros log rest Hq.
    destruct (tick_on_head env now latency r st log rest Ha Hq)
      as (_ & _ & _ & T4 & _).
    split; [|split].
    + intros lines Hp. now rewrite T4, Hp.
    + intros e Hp. now rewrite T4, Hp.
    + intros call Hp.
      assert (Hmid : processQueue env now st
                     = set_awaiting (Some log)
                         (note_fetch call
                            (note_attempt log (set_queue rest (set_timer None st))))).
      { now rewrite (processQueue_on_head env now st log rest Hq), Hp. }
      split; [now rewrite T4, Hp|].
      split; [now rewrite Hmid|]. split; [now rewrite Hmid|]. split.
      * intros trace st' Hall Hrun.
        destruct (pending_fetch_blocks_worker env trace Hall
                    (processQueue env now st) st' log) as (P1 & P2 & P3);
          try (rewrite Hmid; reflexivity); try exact Hrun.
        rewrite P1, P2, P3, Hmid. now repeat split.
      * intros bodies later.
        destruct (posts_extend_queue env bodies) as [added Hposts].
        destruct (Hposts (processQueue env now st)) as (_ & M2 & _).
        unfold processQueue_resume. rewrite M2, Hmid.
        change (awaiting (set_awaiting (Some log) _)) with (Some log). cbv iota.
        match goal with
        | |- context [processQueue_settled ?t log ?p ?s] =>
            destruct (settled_fields t log p s) as (_ & H2 & _)
        end.
        exact H2.
Qed.

Lemma next_tick_follows_delivery_witness :
  awaiting (set_queue [export_by_alice] boot) = None
  /\ timer (tick configured 250 slack_down 5000 (set_queue [export_by_alice] boot))
     = Some (250 + 5000 + THROTTLE_DELAY_MS)
  /\ timer (tick no_webhook 250 slack_down 5000 (set_queue [export_by_alice] boot))
     = Some (250 + THROTTLE_DELAY_MS).
Proof.
  assert (Ha : awaiting (set_queue [export_by_alice] boot) = None) by reflexivity.
  refine (conj Ha (conj _ _)).
  - destruct (proj2 (next_tick_follows_delivery configured 250 5000 slack_down
                       (set_queue [export_by_alice] boot) Ha)
                export_by_alice [] eq_refl) as (_ & _ & Hfetch).
    exact (proj1 (Hfetch _ eq_refl)).
  - destruct (proj2 (next_tick_follows_delivery no_webhook 250 5000 slack_down
                       (set_queue [export_by_alice] boot) Ha)
                export_by_alice [] eq_refl) as (Hreturns & _).
    exact (Hreturns _ eq_refl).
Defined.

(** ** Claims about the message *)

Lemma field_or_NA_LogRecord (props : list (string * JsVal)) (k : string) :
  string_members props = true ->
  exists shown,
    field_or_NA (JObj props) k = Normal shown /\ renders_member props k shown.
Proof.
  intros Hall. unfold field_or_NA, renders_member. cbn [Get].
  destruct (own_property props k) as [v|] eqn:E.
  - destruct (own_property_string props k v Hall E) as [s ->].
    cbn [bind]. unfold or_else. cbn [ToBoolean].
    destruct (String.eqb_spec s "") as [-> | Hne]; cbn [negb ToString].
    + exists "N/A". split; [reflexivity|]. split; [discriminate|].
      intros s' [= <-] Hs'. contradiction.
    + exists s. split; [reflexivity|]. split; [discriminate|].
      now intros s' [= <-] _.
  - cbn. exists "N/A". split; [reflexivity|]. split; [reflexivity|discriminate].
Qed.

(** Whenever the message can be built at all, its text is six labelled
    lines, each ending in what [log.k || 'N/A'] prints as. *)
Lemma slack_text_shape (log : JsVal) (t : string) :
  slack_text log = Normal t ->
  exists action section display user date delegate,
    field_or_NA log "Action" = Normal action
    /\ field_or_NA log "Section" = Normal section
    /\ field_or_NA log "Display" = Normal display
    /\ field_or_NA log "CreatedByUser" = Normal user
    /\ field_or_NA log "AuditCreatedDate" = Normal date
    /\ field_or_NA log "DelegateUser" = Normal delegate
    /\ t = String.concat nl
             [message_line "Action" action;
              message_line "Section" section;
              message_line "Display" display;
              message_line "Created By User" user;
              message_line "Created Date" date;
              message_line "Delegate User" delegate].
Proof.
  unfold slack_text.
  destruct (field_or_NA log "Action") as [action|e]; [|discriminate].
  destruct (field_or_NA log "Section") as [section|e]; [|discriminate].
  destruct (field_or_NA log "Display") as [display|e]; [|discriminate].
  destruct (field_or_NA log "CreatedByUser") as [user|e]; [|discriminate].
  destruct (field_or_NA log "AuditCreatedDate") as [date|e]; [|discriminate].
  destruct (field_or_NA log "DelegateUser") as [delegate|e]; [|discriminate].
  cbn [bind]. intros [= <-].
  exists action, section, display, user, date, delegate.
  repeat (split; [reflexivity|]). reflexivity.
Qed.

(** C6.  For a log record, what is posted to the webhook is the object
    with the one member [text], a string: six lines joined by line feeds,
    one for each of Action, Section, Display, CreatedByUser,
    AuditCreatedDate and DelegateUser in this order, each a starred label
    followed by the value of the member, or by N/A when the record has no
    such member. *)
Theorem slack_payload_of_LogRecord
    (env : Env) (url : string) (props : list (string * JsVal)) :
  SLACK_WEBHOOK_URL env = Some url -> url <> "" ->
  string_members props = true ->
  exists action section display user date delegate,
    postToSlack env (JObj props)
    = PostFetches
        {| fetch_url := JStr url;
           fetch_message :=
             JObj [("text",
                    JStr (String.concat nl
                            [message_line "Action" action;
                             message_line "Section" section;
                             message_line "Display" display;
                             message_line "Created By User" user;
                             message_line "Created Date" date;
                             message_line "Delegate User" delegate]))] |}
    /\ renders_member props "Action" action
    /\ renders_member props "Section" section
    /\ renders_member props "Display" display
    /\ renders_member props "CreatedByUser" user
    /\ renders_member props "AuditCreatedDate" date
    /\ renders_member props "DelegateUser" delegate.
Proof.
  intros Hurl Hne Hall.
  destruct (field_or_NA_LogRecord props "Action" Hall) as (action & Ea & Ra).
  destruct (field_or_NA_LogRecord props "Section" Hall) as (section & Es & Rs).
  destruct (field_or_NA_LogRecord props "Display" Hall) as (display & Ed & Rd).
  destruct (field_or_NA_LogRecord props "CreatedByUser" Hall) as (user & Eu & Ru).
  destruct (field_or_NA_LogRecord props "AuditCreatedDate" Hall) as (date & Et & Rt).
  destruct (field_or_NA_LogRecord props "DelegateUser" Hall) as (delegate & Eg & Rg).
  exists action, section, display, user, date, delegate.
  split; [|repeat (split; [assumption|]); assumption].
  unfold postToSlack, slack_message, slack_text.
  rewrite Hurl. cbn [env_value]. rewrite (secret_truthy url Hne). cbn [negb].
  rewrite Ea, Es, Ed, Eu, Et, Eg. cbn [bind].
  reflexivity.
Qed.

Lemma slack_payload_of_LogRecord_witness :
  SLACK_WEBHOOK_URL configured = Some "https://hooks.slack.example/services/T0"
  /\ "https://hooks.slack.example/services/T0" <> ""
  /\ string_members [("Action", JStr "Export"); ("CreatedByUser", JStr "alice")] = true
  /\ exists action section display user date delegate,
       postToSlack configured export_by_alice
       = PostFetches
           {| fetch_url := JStr "https://hooks.slack.example/services/T0";
              fetch_message :=
                JObj [("text",
                       JStr (String.concat nl
                               [message_line "Action" action;
                                message_line "Section" section;
                                message_line "Display" display;
                                message_line "Created By User" user;
                                message_line "Created Date" date;
                                message_line "Delegate User" delegate]))] |}
       /\ action = "Export" /\ section = "N/A" /\ user = "alice".
Proof.
  assert (Hurl : SLACK_WEBHOOK_URL configured
                 = Some "https://hooks.slack.example/services/T0") by reflexivity.
  assert (Hne : "https://hooks.slack.example/services/T0" <> "") by discriminate.
  assert (Hall : string_members
                   [("Action", JStr "Export"); ("CreatedByUser", JStr "alice")] = true)
    by reflexivity.
  refine (conj Hurl (conj Hne (conj Hall _))).
  destruct (slack_payload_of_LogRecord configured _ _ Hurl Hne Hall)
    as (action & section & display & user & date & delegate
        & Hpost & Ra & Rs & _ & Ru & _).
  exists action, section, display, user, date, delegate.
  split; [exact Hpost|].
  split; [apply (proj2 Ra "Export"); [reflexivity|discriminate]|].
  split; [apply (proj1 Rs); reflexivity|].
  apply (proj2 Ru "alice"); [reflexivity|discriminate].
Defined.

(** C10, counterexample.  A member that is there and truthy can still be
    shown as N/A: the string "N/A" itself is.  The message for a record
    whose Action is "N/A" is the message for a record with no Action. *)
Lemma present_truthy_member_shown_as_NA :
  Get (JObj [("Action", JStr "N/A")]) "Action" = Normal (JStr "N/A")
  /\ ToBoolean (JStr "N/A") = true
  /\ field_or_NA (JObj [("Action", JStr "N/A")]) "Action" = Normal "N/A"
  /\ slack_text (JObj [("Action", JStr "N/A")]) = slack_text (JObj []).
Proof. repeat split; reflexivity. Qed.

(** C10, amended.  A member that is there but falsy (the empty string,
    [null], [false], zero) is shown as N/A, just as a member that is not
    there; and the value shown is N/A exactly when the member is absent or
    falsy, or when the member's own text is already N/A. *)
Theorem falsy_member_renders_NA (log : JsVal) (k : string) (v : JsVal) :
  Get log k = Normal v ->
  (v = JUndefined \/ ToBoolean v = false -> field_or_NA log k = Normal "N/A")
  /\ (field_or_NA log k = Normal "N/A"
      <-> v = JUndefined \/ ToBoolean v = false \/ ToString v = Normal "N/A").
Proof.
  intros Hget. unfold field_or_NA. rewrite Hget. cbn [bind]. unfold or_else.
  split.
  - intros [-> | Hf]; [reflexivity|]. now rewrite Hf.
  - destruct (ToBoolean v) eqn:E.
    + split.
      * intros H. right. right. exact H.
      * intros [-> | [Hf | H]]; [discriminate E|discriminate Hf|exact H].
    + split.
      * intros _. right. left. reflexivity.
      * intros _. reflexivity.
Qed.

Lemma falsy_member_renders_NA_witness :
  Get (JObj [("Action", JStr "Export"); ("Section", JStr "")]) "Section"
  = Normal (JStr "")
  /\ field_or_NA (JObj [("Action", JStr "Export"); ("Section", JStr "")]) "Section"
     = Normal "N/A".
Proof.
  assert (Hget : Get (JObj [("Action", JStr "Export"); ("Section", JStr "")]) "Section"
                 = Normal (JStr "")) by reflexivity.
  refine (conj Hget _).
  apply (proj1 (falsy_member_renders_NA _ _ _ Hget)). right. reflexivity.
Defined.

(** ** The worker, one event at a time *)

(** [processQueue] entered with a record at the head and no fetch pending:
    what each part of the state is when it returns or is suspended. *)
Lemma processQueue_head_fields (env : Env) (now : Z) (st : State)
    (log : JsVal) (rest : list JsVal) :
  awaiting st = None -> messageQueue st = log :: rest ->
  attempted (processQueue env now st) = (attempted st ++ [log])%list
  /\ match postToSlack env log with
     | PostFetches call =>
         messageQueue (processQueue env now st) = rest
         /\ awaiting (processQueue env now st) = Some log
         /\ timer (processQueue env now st) = None
         /\ fetched (processQueue env now st) = (fetched st ++ [call])%list
     | PostThrows _ =>
         messageQueue (processQueue env now st) = log :: rest
         /\ awaiting (processQueue env now st) = None
         /\ timer (processQueue env now st) = Some (now + THROTTLE_DELAY_MS)
         /\ fetched (processQueue env now st) = fetched st
     | PostReturns _ =>
         messageQueue (processQueue env now st)
         = (if throws (posted_line log) then log :: rest else rest)
         /\ awaiting (processQueue env now st) = None
         /\ timer (processQueue env now st) = Some (now + THROTTLE_DELAY_MS)
         /\ fetched (processQueue env now st) = fetched st
     end.
Proof.
  intros Ha Hq. rewrite (processQueue_on_head env now st log rest Hq).
  set (base := note_attempt log (set_queue rest (set_timer None st))).
  assert (B1 : messageQueue base = rest) by reflexivity.
  assert (B2 : awaiting base = None) by exact Ha.
  assert (B3 : attempted base = (attempted st ++ [log])%list) by reflexivity.
  assert (B4 : fetched base = fetched st) by reflexivity.
  assert (B5 : timer base = None) by reflexivity.
  clearbody base.
  destruct (postToSlack env log) as [lines|e|call].
  - destruct (write_all_fields lines base) as (W1 & _ & W3 & W4 & W5).
    destruct (settled_fields now log (Normal tt) (write_all lines base))
      as (H1 & H2 & H3 & H4 & H5).
    rewrite H1, H2, H3, H4, H5, W1, W3, W4, W5, B1, B2, B3, B4.
    cbn [bind]. repeat split; reflexivity.
  - destruct (settled_fields now log (Throw e) base) as (H1 & H2 & H3 & H4 & H5).
    rewrite H1, H2, H3, H4, H5, B1, B2, B3, B4.
    cbn [bind throws]. repeat split; reflexivity.
  - change (messageQueue (set_awaiting (Some log) (note_fetch call base)))
      with (messageQueue base).
    change (attempted (set_awaiting (Some log) (note_fetch call base)))
      with (attempted base).
    change (fetched (set_awaiting (Some log) (note_fetch call base)))
      with (fetched base ++ [call])%list.
    change (timer (set_awaiting (Some log) (note_fetch call base)))
      with (timer base).
    change (awaiting (set_awaiting (Some log) (note_fetch call base)))
      with (Some log).
    rewrite B1, B3, B4, B5. repeat split; reflexivity.
Qed.

(** The suspended [processQueue] continued: what each part of the state is
    when it returns. *)
Lemma processQueue_resume_fields (now : Z) (r : FetchResult) (st : State)
    (log : JsVal) :
  awaiting st = Some log ->
  messageQueue (processQueue_resume now r st)
  = (if throws (_ <- postToSlack_resume r ;; posted_line log)
     then log :: messageQueue st else messageQueue st)
  /\ timer (processQueue_resume now r st) = Some (now + THROTTLE_DELAY_MS)
  /\ awaiting (processQueue_resume now r st) = None
  /\ attempted (processQueue_resume now r st) = attempted st
  /\ fetched (processQueue_resume now r st) = fetched st.
Proof.
  intros Ha. unfold processQueue_resume. rewrite Ha.
  destruct (settled_fields now log (postToSlack_resume r) (set_awaiting None st))
    as (H1 & H2 & H3 & H4 & H5).
  rewrite H1, H2, H3, H4, H5. repeat split; reflexivity.
Qed.

(** If the rest of the [try] block does not throw after the fetch has
    settled, the fetch was answered with a 2xx status. *)
Lemma resume_normal_delivered (r : FetchResult) (log : JsVal) :
  throws (_ <- postToSlack_resume r ;; posted_line log) = false ->
  delivered r = true.
Proof.
  intros Hn. destruct (delivered r) eqn:E; [reflexivity|].
  destruct (resume_not_delivered r E) as [e He]. now rewrite He in Hn.
Qed.

Lemma worker_state_ok_cases (st : State) :
  worker_state_ok st = true ->
  (awaiting st = None /\ exists due, timer st = Some due)
  \/ (timer st = None /\ exists log, awaiting st = Some log).
Proof.
  unfold worker_state_ok.
  destruct (timer st) as [due|], (awaiting st) as [log|]; try discriminate;
    intros _; [left|right]; eauto.
Qed.

(** What the request with body [body] does to the queue, whatever the
    state. *)
Lemma post_appends_queued (env : Env) (body : JsVal) (st : State) :
  messageQueue (fst (post_sfdc_audit_log env body st))
  = (messageQueue st ++ queued env body)%list.
Proof.
  destruct (post_extends_queue env body) as [added Hadd].
  unfold queued. now rewrite (Hadd st), (Hadd boot).
Qed.

(** One event from a resting state leads to a resting state. *)
Lemma step_keeps_worker_state_ok (env : Env) (now : Z) (ev : Event)
    (st st' : State) :
  worker_state_ok st = true -> step env now ev st = Some st' ->
  worker_state_ok st' = true.
Proof.
  intros Hok Hstep. destruct ev as [body| |r]; cbn [step] in Hstep.
  - injection Hstep as <-.
    destruct (post_keeps_worker_state env body st) as (K1 & K2 & _).
    unfold worker_state_ok in *. now rewrite K1, K2.
  - destruct (worker_state_ok_cases st Hok) as [(Ha & due & Ht) | (Ht & _)];
      [|now rewrite Ht in Hstep].
    rewrite Ht in Hstep. destruct (due <=? now); [|discriminate].
    injection Hstep as <-.
    destruct (messageQueue st) as [|log rest] eqn:Hq.
    + rewrite (processQueue_on_empty env now st Hq). unfold worker_state_ok.
      cbn. now rewrite Ha.
    + destruct (processQueue_head_fields env now st log rest Ha Hq) as (_ & Hf).
      unfold worker_state_ok.
      destruct (postToSlack env log) as [lines|e|call];
        destruct Hf as (_ & F2 & F3 & _); now rewrite F2, F3.
  - destruct (awaiting st) as [log|] eqn:Ha; [|discriminate].
    injection Hstep as <-.
    destruct (processQueue_resume_fields now r st log Ha) as (_ & R2 & R3 & _).
    unfold worker_state_ok. now rewrite R2, R3.
Qed.

(** One event from a resting state: the records held afterwards are the
    records held before and the ones the event brought in, less at most
    one taken from the front; one is taken only when a fetch settles with a
    2xx answer or, with no webhook address set, when the timer fires. *)
Lemma step_conserves (env : Env) (now : Z) (ev : Event) (st st' : State) :
  worker_state_ok st = true -> step env now ev st = Some st' ->
  exists removed,
    (removed ++ pending st')%list
    = (pending st ++ accepted env [(now, ev)])%list
    /\ (List.length removed <= 1)%nat
    /\ (webhook_set env = true ->
        (List.length removed <= deliveries [(now, ev)])%nat).
Proof.
  intros Hok Hstep. destruct ev as [body| |r]; cbn [step] in Hstep.
  - injection Hstep as <-. exists []. cbn [accepted deliveries app List.length].
    destruct (post_keeps_worker_state env body st) as (_ & K2 & _).
    unfold pending. rewrite K2, post_appends_queued, app_nil_r, app_assoc.
    split; [reflexivity|]. split; [lia|]. intros _. lia.
  - destruct (worker_state_ok_cases st Hok) as [(Ha & due & Ht) | (Ht & _)];
      [|now rewrite Ht in Hstep].
    rewrite Ht in Hstep. destruct (due <=? now); [|discriminate].
    injection Hstep as <-. cbn [accepted deliveries]. rewrite app_nil_r.
    destruct (messageQueue st) as [|log rest] eqn:Hq.
    + rewrite (processQueue_on_empty env now st Hq). exists [].
      unfold pending. cbn. rewrite Ha, Hq.
      split; [reflexivity|]. split; [lia|]. intros _. lia.
    + destruct (processQueue_head_fields env now st log rest Ha Hq) as (_ & Hf).
      unfold pending. rewrite Ha, Hq.
      destruct (postToSlack env log) as [lines|e|call] eqn:Hp;
        destruct Hf as (F1 & F2 & _); rewrite F1, F2.
      * destruct (throws (posted_line log)).
        -- exists []. cbn. split; [reflexivity|]. split; [lia|]. intros _. lia.
        -- exists [log]. cbn. split; [reflexivity|]. split; [lia|].
           intros Hw. exfalso. unfold postToSlack in Hp. unfold webhook_set in Hw.
           rewrite Hw in Hp. cbn [negb] in Hp.
           destruct (slack_message log); discriminate.
      * exists []. cbn. split; [reflexivity|]. split; [lia|]. intros _. lia.
      * exists []. cbn. split; [reflexivity|]. split; [lia|]. intros _. lia.
  - destruct (awaiting st) as [log|] eqn:Ha; [|discriminate].
    injection Hstep as <-. cbn [accepted deliveries]. rewrite app_nil_r.
    destruct (processQueue_resume_fields now r st log Ha) as (R1 & _ & R3 & _).
    unfold pending. rewrite R1, R3, Ha.
    destruct (throws (_ <- postToSlack_resume r ;; posted_line log)) eqn:Et.
    + exists []. cbn. split; [reflexivity|]. split; [lia|]. intros _. lia.
    + exists [log]. cbn. split; [reflexivity|]. split; [lia|].
      intros _. rewrite (resume_normal_delivered r log Et). cbn. lia.
Qed.

Lemma accepted_cons (env : Env) (e : Z * Event) (trace : list (Z * Event)) :
  accepted env (e :: trace) = (accepted env [e] ++ accepted env trace)%list.
Proof.
  destruct e as [now [body| |r]]; cbn [accepted]; [|reflexivity|reflexivity].
  now rewrite app_nil_r.
Qed.

Lemma deliveries_cons (e : Z * Event) (trace : list (Z * Event)) :
  deliveries (e :: trace) = (deliveries [e] + deliveries trace)%nat.
Proof.
  destruct e as [now [body| |r]]; cbn [deliveries]; lia.
Qed.

(** A run from a resting state ends in a resting state. *)
Lemma run_keeps_worker_state_ok (env : Env) (trace : list (Z * Event)) :
  forall st st',
    worker_state_ok st = true -> run env trace st = Some st' ->
    worker_state_ok st' = true.
Proof.
  induction trace as [|[now ev] trace IH]; intros st st' Hok Hrun.
  - cbn in Hrun. now injection Hrun as <-.
  - cbn [run] in Hrun. destruct (step env now ev st) as [st1|] eqn:Hstep;
      [|discriminate].
    apply (IH st1 st'); [|exact Hrun].
    exact (step_keeps_worker_state_ok env now ev st st1 Hok Hstep).
Qed.

(** A run from a resting state: the records held at the end, preceded by
    the ones taken from the front on the way, are the records held at the
    start followed by the ones accepted on the way. *)
Lemma run_conserves (env : Env) (trace : list (Z * Event)) :
  forall st st',
    worker_state_ok st = true -> run env trace st = Some st' ->
    exists removed,
      (removed ++ pending st')%list = (pending st ++ accepted env trace)%list
      /\ (webhook_set env = true ->
          (List.length removed <= deliveries trace)%nat).
Proof.
  induction trace as [|[now ev] trace IH]; intros st st' Hok Hrun.
  - cbn in Hrun. injection Hrun as <-. exists []. cbn. rewrite app_nil_r.
    split; [reflexivity|]. intros _. lia.
  - cbn [run] in Hrun. destruct (step env now ev st) as [st1|] eqn:Hstep;
      [|discriminate].
    destruct (step_conserves env now ev st st1 Hok Hstep) as (r1 & E1 & _ & D1).
    pose proof (step_keeps_worker_state_ok env now ev st st1 Hok Hstep) as Hok1.
    destruct (IH st1 st' Hok1 Hrun) as (r2 & E2 & D2).
    exists (r1 ++ r2)%list. split.
    + rewrite accepted_cons, <- app_assoc, E2, !app_assoc, E1. reflexivity.
    + intros Hw. rewrite length_app, deliveries_cons.
      specialize (D1 Hw). specialize (D2 Hw). lia.
Qed.

(** ** Properties of whole runs *)

(** The port can always be printed, so the app always starts its worker:
    the state after [listen] is that of a worker entered on an empty queue,
    with the one line of the start-up on the console. *)
Lemma listen_started (env : Env) (t0 : Z) :
  exists port,
    ToString (PORT_value env) = Normal port
    /\ listen env t0
       = processQueue env t0
           (write LLog ("Salesforce Audit Log Service listening on port " ++ port)
              boot).
Proof.
  unfold listen, PORT_value, or_else.
  destruct (PORT env) as [p|]; cbn [env_value ToBoolean].
  - destruct (negb (String.eqb p "")); cbn [ToString]; eauto.
  - cbn [ToString]. eauto.
Qed.

Lemma listen_worker_state_ok (env : Env) (t0 : Z) :
  worker_state_ok (listen env t0) = true.
Proof.
  destruct (listen_started env t0) as (port & _ & ->). reflexivity.
Qed.

Lemma listen_pending (env : Env) (t0 : Z) :
  pending (listen env t0) = [] /\ fetched (listen env t0) = [].
Proof.
  destruct (listen_started env t0) as (port & _ & ->). now split.
Qed.

(** X1.  From the start of the app on, whatever requests, timer events and
    fetch answers follow, the worker is in exactly one of two states: its
    timer is set and no fetch is pending, or one fetch is pending and no
    timer is set.  There is never a second worker, and the worker never
    stops without either a timer or a fetch to wake it. *)
Theorem one_worker_scheduled_or_waiting
    (env : Env) (t0 : Z) (trace : list (Z * Event)) (st : State) :
  run env trace (listen env t0) = Some st ->
  worker_state_ok st = true.
Proof.
  apply run_keeps_worker_state_ok, listen_worker_state_ok.
Qed.

Lemma one_worker_scheduled_or_waiting_witness :
  run configured sample_trace (listen configured 0) = Some sample_outcome
  /\ worker_state_ok sample_outcome = true.
Proof.
  assert (Hrun : run configured sample_trace (listen configured 0)
                 = Some sample_outcome) by (vm_compute; reflexivity).
  exact (conj Hrun (one_worker_scheduled_or_waiting configured 0 _ _ Hrun)).
Defined.

(** X2.  Records leave the process only from the front and in the order
    in which they were accepted: at any moment of a run, the record being
    posted followed by the queue is what remains of the accepted records
    (each batch reversed, batches in order of arrival) after some first
    ones have been taken away.  Nothing is reordered or duplicated by a
    retry, also when requests are served while a fetch is pending. *)
Theorem held_records_are_a_suffix_of_accepted
    (env : Env) (t0 : Z) (trace : list (Z * Event)) (st : State) :
  run env trace (listen env t0) = Some st ->
  exists removed, (removed ++ pending st)%list = accepted env trace.
Proof.
  intros Hrun.
  destruct (run_conserves env trace (listen env t0) st
              (listen_worker_state_ok env t0) Hrun) as (removed & E & _).
  rewrite (proj1 (listen_pending env t0)) in E.
  exists removed. exact E.
Qed.

Lemma held_records_are_a_suffix_of_accepted_witness :
  run configured sample_trace (listen configured 0) = Some sample_outcome
  /\ exists removed,
       (removed ++ pending sample_outcome)%list = accepted configured sample_trace.
Proof.
  assert (Hrun : run configured sample_trace (listen configured 0)
                 = Some sample_outcome) by (vm_compute; reflexivity).
  exact (conj Hrun
           (held_records_are_a_suffix_of_accepted configured 0 _ _ Hrun)).
Defined.

(** X3.  With the webhook address set, no accepted record is lost in any
    run: the accepted records are never more than the fetches answered
    with a 2xx status plus the records still held (in the queue or being
    posted). *)
Theorem accepted_records_are_delivered_or_held
    (env : Env) (t0 : Z) (trace : list (Z * Event)) (st : State) :
  webhook_set env = true ->
  run env trace (listen env t0) = Some st ->
  (List.length (accepted env trace)
   <= deliveries trace + List.length (pending st))%nat.
Proof.
  intros Hw Hrun.
  destruct (run_conserves env trace (listen env t0) st
              (listen_worker_state_ok env t0) Hrun) as (removed & E & D).
  rewrite (proj1 (listen_pending env t0)) in E. cbn [app] in E.
  rewrite <- E, length_app. specialize (D Hw). lia.
Qed.

Lemma accepted_records_are_delivered_or_held_witness :
  webhook_set configured = true
  /\ run configured sample_trace (listen configured 0) = Some sample_outcome
  /\ (List.length (accepted configured sample_trace)
      <= deliveries sample_trace + List.length (pending sample_outcome))%nat.
Proof.
  assert (Hw : webhook_set configured = true) by reflexivity.
  assert (Hrun : run configured sample_trace (listen configured 0)
                 = Some sample_outcome) by (vm_compute; reflexivity).
  exact (conj Hw (conj Hrun
           (accepted_records_are_delivered_or_held configured 0 _ _ Hw Hrun))).
Defined.

(** X4.  The endpoint changes the queue only for an authenticated request
    with something in it: if the queue after a request differs from the
    queue before it, then a secret is configured and not empty, the token
    of the request is that secret, its logs are an array that is not
    empty, and the answer is 202. *)
Theorem queue_changes_only_when_authenticated
    (env : Env) (body : JsVal) (st : State) :
  messageQueue (fst (post_sfdc_audit_log env body st)) <> messageQueue st ->
  exists secret batch reply,
    SALESFORCE_SECURITY_TOKEN env = Some secret /\ secret <> ""
    /\ destructure_body body = Normal (JStr secret, JArr batch)
    /\ batch <> []
    /\ snd (post_sfdc_audit_log env body st) = Normal reply
    /\ reply_status reply = 202.
Proof.
  unfold post_sfdc_audit_log.
  destruct (destructure_body body) as [[token logs]|e]; [|now cbn].
  destruct (SALESFORCE_SECURITY_TOKEN env) as [secret|]; [|now cbn].
  cbn [env_value ToBoolean].
  destruct (String.eqb_spec secret "") as [-> | Hne]; [now cbn|]. cbn [negb].
  destruct (ToBoolean token); [|now cbn]. cbn [negb orb].
  destruct (StrictEquals token (JStr secret)) eqn:Eq; [|now cbn]. cbn [negb].
  apply StrictEquals_string in Eq. subst token.
  destruct logs as [| |b|n|s|batch|props];
    cbn [Array_isArray negb]; rewrite ?orb_true_r; try now cbn.
  destruct batch as [|r batch]; [now cbn|].
  intros _. exists secret, (r :: batch). eexists.
  repeat (split; [first [reflexivity | assumption | discriminate]|]).
  reflexivity.
Qed.

Lemma queue_changes_only_when_authenticated_witness :
  messageQueue
    (fst (post_sfdc_audit_log configured (request_body "S3CR3T" [export_by_alice])
            boot))
  <> messageQueue boot
  /\ exists secret batch reply,
       SALESFORCE_SECURITY_TOKEN configured = Some secret /\ secret <> ""
       /\ destructure_body (request_body "S3CR3T" [export_by_alice])
          = Normal (JStr secret, JArr batch)
       /\ batch <> []
       /\ snd (post_sfdc_audit_log configured
                 (request_body "S3CR3T" [export_by_alice]) boot)
          = Normal reply
       /\ reply_status reply = 202.
Proof.
  assert (Hch : messageQueue
                  (fst (post_sfdc_audit_log configured
                          (request_body "S3CR3T" [export_by_alice]) boot))
                <> messageQueue boot) by discriminate.
  refine (conj Hch _).
  exact (queue_changes_only_when_authenticated configured _ boot Hch).
Defined.

(** X5.  Two batches sent one after the other leave the queue as one
    batch would that lists the records of the later request before those
    of the earlier one: since each batch is newest first, splitting a
    listing into requests, oldest part first, does not change the order in
    which the records are posted. *)
Theorem split_batches_compose
    (env : Env) (secret : string) (st : State)
    (earlier later whole : JsVal) (older newer : list JsVal) :
  SALESFORCE_SECURITY_TOKEN env = Some secret -> secret <> "" ->
  older <> [] -> newer <> [] ->
  destructure_body earlier = Normal (JStr secret, JArr older) ->
  destructure_body later = Normal (JStr secret, JArr newer) ->
  destructure_body whole = Normal (JStr secret, JArr (newer ++ older)) ->
  messageQueue (posts env [earlier; later] st)
  = messageQueue (fst (post_sfdc_audit_log env whole st)).
Proof.
  intros Hs Hne Ho Hn He Hl Hw.
  assert (Hno : (newer ++ older)%list <> []).
  { destruct newer; [contradiction|discriminate]. }
  unfold posts. cbn [fold_left].
  rewrite (post_queues_batch env later _ secret newer Hs Hne Hl Hn).
  rewrite (post_queues_batch env earlier st secret older Hs Hne He Ho).
  rewrite (post_queues_batch env whole st secret _ Hs Hne Hw Hno).
  cbn [fst write set_queue messageQueue].
  now rewrite rev_app_distr, app_assoc.
Qed.

Lemma split_batches_compose_witness :
  SALESFORCE_SECURITY_TOKEN configured = Some "S3CR3T" /\ "S3CR3T" <> ""
  /\ [export_by_alice] <> [] /\ [delete_by_carol; login_by_bob] <> []
  /\ messageQueue
       (posts configured
          [request_body "S3CR3T" [export_by_alice];
           request_body "S3CR3T" [delete_by_carol; login_by_bob]] boot)
     = messageQueue
         (fst (post_sfdc_audit_log configured
                 (request_body "S3CR3T"
                    ([delete_by_carol; login_by_bob] ++ [export_by_alice]))
                 boot)).
Proof.
  assert (Hs : SALESFORCE_SECURITY_TOKEN configured = Some "S3CR3T") by reflexivity.
  assert (Hne : "S3CR3T" <> "") by discriminate.
  assert (Ho : [export_by_alice] <> []) by discriminate.
  assert (Hn : [delete_by_carol; login_by_bob] <> []) by discriminate.
  refine (conj Hs (conj Hne (conj Ho (conj Hn _)))).
  exact (split_batches_compose configured "S3CR3T" boot
           (request_body "S3CR3T" [export_by_alice])
           (request_body "S3CR3T" [delete_by_carol; login_by_bob])
           (request_body "S3CR3T"
              ([delete_by_carol; login_by_bob] ++ [export_by_alice]))
           [export_by_alice] [delete_by_carol; login_by_bob]
           Hs Hne Ho Hn eq_refl eq_refl eq_refl).
Defined.

(** ** Which logs can be formatted *)

(** String conversion throws exactly on the values that are not
    printable. *)
Lemma ToString_printable : forall v, throws (ToString v) = negb (printable v).
Proof.
  fix IH 1. intros [| |b|n|s|elems|props]; try reflexivity.
  - destruct b; reflexivity.
  - cbn [ToString printable].
    induction elems as [|e elems IHl]; [reflexivity|].
    assert (He : throws (match e with
                         | JUndefined | JNull => Normal ""
                         | _ => ToString e
                         end) = negb (printable e)).
    { pose proof (IH e) as He. destruct e; try reflexivity; exact He. }
    destruct (match e with
              | JUndefined | JNull => Normal ""
              | _ => ToString e
              end) as [a|err]; cbn [throws] in He.
    + apply (f_equal negb) in He. rewrite negb_involutive in He. cbn in He.
      rewrite <- He. cbn [bind andb].
      destruct elems as [|e' elems']; [reflexivity|].
      rewrite <- IHl.
      match goal with
      | |- throws (bind ?c _) = throws ?c => destruct c; reflexivity
      end.
    + apply (f_equal negb) in He. rewrite negb_involutive in He. cbn in He.
      rewrite <- He. reflexivity.
  - cbn. destruct (own_property props "toString"); reflexivity.
Qed.

(** One line of the message can be built exactly when the member is falsy
    or printable (and the log is an object or a primitive). *)
Lemma field_or_NA_throws (log : JsVal) (k : string) :
  match Get log k with
  | Normal v => negb (ToBoolean v) || printable v
  | Throw _ => false
  end = negb (throws (field_or_NA log k)).
Proof.
  unfold field_or_NA. destruct (Get log k) as [v|e]; [|reflexivity].
  cbn [bind]. rewrite ToString_printable, negb_involutive. unfold or_else.
  destruct (ToBoolean v); reflexivity.
Qed.

(** Building the message throws exactly on the logs that are not
    formattable. *)
Lemma slack_text_throws (log : JsVal) :
  throws (slack_text log) = negb (formattable log).
Proof.
  unfold formattable, message_members. cbn [forallb].
  rewrite !field_or_NA_throws. unfold slack_text.
  destruct (field_or_NA log "Action"); cbn [bind throws negb andb]; [|reflexivity].
  destruct (field_or_NA log "Section"); cbn [bind throws negb andb]; [|reflexivity].
  destruct (field_or_NA log "Display"); cbn [bind throws negb andb]; [|reflexivity].
  destruct (field_or_NA log "CreatedByUser"); cbn [bind throws negb andb];
    [|reflexivity].
  destruct (field_or_NA log "AuditCreatedDate"); cbn [bind throws negb andb];
    [|reflexivity].
  destruct (field_or_NA log "DelegateUser"); reflexivity.
Qed.

(** X12.  The message for a log can be built exactly when the log is
    formattable: it is not [null] (reading a member of it would throw), and
    each of its six members is absent, falsy, or a value that prints, that
    is, with no object carrying a member named [toString] in it, at the top
    or inside arrays.  On every other log the template literal throws a
    TypeError, before anything is sent. *)
Theorem message_built_iff_formattable (log : JsVal) :
  (exists text, slack_text log = Normal text) <-> formattable log = true.
Proof.
  pose proof (slack_text_throws log) as Ht. split.
  - intros [text Etext]. rewrite Etext in Ht. cbn [throws] in Ht.
    now destruct (formattable log).
  - intros Hf. rewrite Hf in Ht.
    destruct (slack_text log) as [text|e]; [eauto|discriminate].
Qed.

(** Log records are formattable. *)
Lemma LogRecord_formattable (log : JsVal) :
  is_LogRecord log = true -> formattable log = true.
Proof.
  intros Hlog. unfold formattable, message_members. cbn [forallb].
  repeat match goal with
         | |- context [Get log ?k] =>
             destruct (Get_LogRecord log k Hlog) as [-> | [? ->]]
         end; cbn [printable]; rewrite ?orb_true_r; reflexivity.
Qed.

(** ** Properties of consecutive ticks *)

Lemma resume_delivered (r : FetchResult) :
  delivered r = true -> postToSlack_resume r = Normal tt.
Proof.
  destruct r as [e|resp]; cbn [delivered postToSlack_resume]; [discriminate|].
  now intros ->.
Qed.

(** With the webhook set, a formattable log is handed to [fetch], with the
    message built from it. *)
Lemma postToSlack_formattable (env : Env) (log : JsVal) :
  webhook_set env = true -> formattable log = true ->
  exists text,
    slack_text log = Normal text
    /\ postToSlack env log
       = PostFetches {| fetch_url := env_value (SLACK_WEBHOOK_URL env);
                        fetch_message := JObj [("text", JStr text)] |}.
Proof.
  intros Hw Hf. pose proof (slack_text_throws log) as Ht.
  rewrite Hf in Ht. destruct (slack_text log) as [text|e] eqn:Etext;
    [|discriminate].
  exists text. split; [reflexivity|].
  unfold postToSlack, slack_message. unfold webhook_set in Hw.
  now rewrite Hw, Etext.
Qed.

(** A log whose attempt throws whatever Slack answers: line 81 cannot be
    printed for it, or the webhook is set and its message cannot be
    built. *)
Lemma attempt_always_throws (env : Env) (log : JsVal) (r : FetchResult) :
  throws (posted_line log) = true
  \/ (webhook_set env = true /\ formattable log = false) ->
  throws (attempt env log r) = true
  /\ forall call, postToSlack env log <> PostFetches call.
Proof.
  intros Hbad. unfold attempt, postToSlack, slack_message.
  destruct (ToBoolean (env_value (SLACK_WEBHOOK_URL env))) eqn:Hw; cbn [negb].
  - assert (Ht : throws (slack_text log) = true).
    { destruct Hbad as [Hp | [_ Hf]].
      - destruct (slack_text log) as [text|e] eqn:Etext; [|reflexivity].
        destruct (posted_line_of_slack_text log text Etext) as [line Hline].
        now rewrite Hline in Hp.
      - now rewrite slack_text_throws, Hf. }
    destruct (slack_text log) as [text|e]; [discriminate|]. cbn [bind].
    split; [reflexivity|discriminate].
  - destruct Hbad as [Hp | [Hset _]].
    + split; [exact Hp|discriminate].
    + unfold webhook_set in Hset. congruence.
Qed.

(** X6.  While Slack answers 2xx, the worker posts the queue in order, one
    record per tick: after n ticks the first n records of the queue have
    been attempted once each, in order, a fetch has been made for each
    with the message built from it, and the rest of the queue is
    untouched.  (The webhook is set and the logs are formattable.) *)
Theorem ok_ticks_deliver_in_order
    (env : Env) (plan : list (Z * FetchResult * Z)) (st : State) :
  webhook_set env = true ->
  Forall (fun p => delivered (snd (fst p)) = true) plan ->
  awaiting st = None ->
  Forall (fun log => formattable log = true) (messageQueue st) ->
  messageQueue (ticks env plan st)
  = skipn (List.length plan) (messageQueue st)
  /\ attempted (ticks env plan st)
     = (attempted st ++ firstn (List.length plan) (messageQueue st))%list
  /\ exists calls,
       fetched (ticks env plan st) = (fetched st ++ calls)%list
       /\ Forall2
            (fun log call => slack_message log = Normal (fetch_message call))
            (firstn (List.length plan) (messageQueue st)) calls.
Proof.
  intros Hw Hall. revert st.
  induction Hall as [|[[now r] latency] plan Hr _ IH]; intros st Ha Hq.
  - cbn. rewrite !app_nil_r. split; [reflexivity|]. split; [reflexivity|].
    exists []. rewrite app_nil_r. split; [reflexivity|constructor].
  - cbn [ticks List.length]. cbn [fst snd] in Hr.
    destruct (messageQueue st) as [|log rest] eqn:Eq.
    + rewrite (tick_on_empty_queue env now latency r st Ha Eq).
      destruct (IH (setTimeout_processQueue now (set_timer None st)))
        as (I1 & I2 & calls & I3 & I4);
        [exact Ha|cbn; rewrite Eq; constructor|].
      cbn [setTimeout_processQueue set_timer messageQueue attempted fetched] in *.
      rewrite Eq in *. rewrite I1, I2, I3.
      rewrite firstn_nil in *. rewrite skipn_nil.
      split; [reflexivity|]. split; [reflexivity|].
      exists calls. split; [reflexivity|exact I4].
    + inversion Hq as [|? ? Hlog Hrest]; subst.
      destruct (postToSlack_formattable env log Hw Hlog) as (text & Etext & Hpost).
      destruct (tick_on_head env now latency r st log rest Ha Eq)
        as (T1 & T2 & T3 & _ & T5).
      assert (Hok : throws (attempt env log r) = false).
      { unfold attempt. rewrite Hpost, (resume_delivered r Hr). cbn [bind].
        destruct (posted_line_of_slack_text log text Etext) as [line ->].
        reflexivity. }
      rewrite Hok in T1. rewrite Hpost in T5.
      destruct (IH (tick env now r latency st)) as (I1 & I2 & calls & I3 & I4);
        [exact T3|now rewrite T1|].
      rewrite T1 in I1, I2, I4. rewrite T2 in I2. rewrite T5 in I3.
      cbn [skipn firstn]. rewrite I1, I2, I3, <- !app_assoc.
      split; [reflexivity|]. split; [reflexivity|].
      eexists. split; [reflexivity|].
      constructor; [|exact I4].
      unfold slack_message. now rewrite Etext.
Qed.

Lemma ok_ticks_deliver_in_order_witness :
  webhook_set configured = true
  /\ Forall (fun p => delivered (snd (fst p)) = true)
       [(0, slack_ok, 200); (1300, slack_ok, 150)]
  /\ awaiting (set_queue [login_by_bob; export_by_alice; delete_by_carol] boot)
     = None
  /\ Forall (fun log => formattable log = true)
       (messageQueue (set_queue [login_by_bob; export_by_alice; delete_by_carol] boot))
  /\ messageQueue
       (ticks configured [(0, slack_ok, 200); (1300, slack_ok, 150)]
          (set_queue [login_by_bob; export_by_alice; delete_by_carol] boot))
     = [delete_by_carol]
  /\ attempted
       (ticks configured [(0, slack_ok, 200); (1300, slack_ok, 150)]
          (set_queue [login_by_bob; export_by_alice; delete_by_carol] boot))
     = [login_by_bob; export_by_alice].
Proof.
  assert (Hw : webhook_set configured = true) by reflexivity.
  assert (Hall : Forall (fun p => delivered (snd (fst p)) = true)
                   [(0, slack_ok, 200); (1300, slack_ok, 150)])
    by (repeat constructor).
  assert (Ha : awaiting (set_queue [login_by_bob; export_by_alice; delete_by_carol]
                           boot) = None) by reflexivity.
  assert (Hq : Forall (fun log => formattable log = true)
                 (messageQueue
                    (set_queue [login_by_bob; export_by_alice; delete_by_carol] boot)))
    by (repeat constructor).
  refine (conj Hw (conj Hall (conj Ha (conj Hq _)))).
  destruct (ok_ticks_deliver_in_order configured _ _ Hw Hall Ha Hq)
    as (H1 & H2 & _).
  exact (conj H1 H2).
Defined.

(** X9.  A log whose attempt always throws stays at the head of the queue
    for ever and nothing behind it is ever attempted or posted: every tick
    takes it, fails before any fetch is made, and puts it back.  This is so
    for a log on which line 81 cannot be printed (a [null] among the logs,
    for one) whatever the configuration, and with the webhook set for
    every log that is not formattable. *)
Theorem unformattable_log_blocks_queue
    (env : Env) (log : JsVal) (rest : list JsVal)
    (plan : list (Z * FetchResult * Z)) (st : State) :
  throws (posted_line log) = true
  \/ (webhook_set env = true /\ formattable log = false) ->
  awaiting st = None -> messageQueue st = log :: rest ->
  messageQueue (ticks env plan st) = log :: rest
  /\ attempted (ticks env plan st)
     = (attempted st ++ repeat log (List.length plan))%list
  /\ fetched (ticks env plan st) = fetched st.
Proof.
  intros Hbad. revert st.
  induction plan as [|[[now r] latency] plan IH]; intros st Ha Hq.
  - cbn. now rewrite app_nil_r.
  - cbn [ticks List.length repeat].
    destruct (attempt_always_throws env log r Hbad) as [Hthrows Hnofetch].
    destruct (tick_on_head env now latency r st log rest Ha Hq)
      as (T1 & T2 & T3 & _ & T5).
    rewrite Hthrows in T1.
    assert (T5' : fetched (tick env now r latency st) = fetched st).
    { rewrite T5. destruct (postToSlack env log) as [lines|e|call];
        [reflexivity|reflexivity|]. now destruct (Hnofetch call). }
    destruct (IH _ T3 T1) as (I1 & I2 & I3).
    rewrite I1, I2, I3, T2, T5', <- app_assoc. repeat split; reflexivity.
Qed.

Lemma unformattable_log_blocks_queue_witness :
  (throws (posted_line JNull) = true
   \/ (webhook_set no_webhook = true /\ formattable JNull = false))
  /\ awaiting (set_queue [JNull; login_by_bob] boot) = None
  /\ messageQueue (set_queue [JNull; login_by_bob] boot) = JNull :: [login_by_bob]
  /\ messageQueue
       (ticks no_webhook [(0, slack_ok, 10); (1100, slack_ok, 10); (2200, slack_ok, 10)]
          (set_queue [JNull; login_by_bob] boot))
     = [JNull; login_by_bob]
  /\ fetched
       (ticks no_webhook [(0, slack_ok, 10); (1100, slack_ok, 10); (2200, slack_ok, 10)]
          (set_queue [JNull; login_by_bob] boot))
     = [].
Proof.
  assert (Hbad : throws (posted_line JNull) = true
                 \/ (webhook_set no_webhook = true /\ formattable JNull = false))
    by (left; reflexivity).
  assert (Ha : awaiting (set_queue [JNull; login_by_bob] boot) = None)
    by reflexivity.
  assert (Hq : messageQueue (set_queue [JNull; login_by_bob] boot)
               = JNull :: [login_by_bob]) by reflexivity.
  refine (conj Hbad (conj Ha (conj Hq _))).
  destruct (unformattable_log_blocks_queue no_webhook JNull [login_by_bob]
              [(0, slack_ok, 10); (1100, slack_ok, 10); (2200, slack_ok, 10)]
              _ Hbad Ha Hq) as (H1 & _ & H3).
  exact (conj H1 H3).
Defined.

(** X10.  Every retry sends the same message again: while the answers are
    not 2xx, each tick makes one more fetch with the very call made for
    the head the first time, so a message that Slack did take in before
    answering with an error is posted more than once. *)
Theorem retries_resend_same_message
    (env : Env) (log : JsVal) (rest : list JsVal) (call : FetchCall)
    (plan : list (Z * FetchResult * Z)) (st : State) :
  postToSlack env log = PostFetches call ->
  Forall (fun p => delivered (snd (fst p)) = false) plan ->
  awaiting st = None -> messageQueue st = log :: rest ->
  fetched (ticks env plan st)
  = (fetched st ++ repeat call (List.length plan))%list
  /\ messageQueue (ticks env plan st) = log :: rest.
Proof.
  intros Hpost Hall. revert st.
  induction Hall as [|[[now r] latency] plan Hr _ IH]; intros st Ha Hq.
  - cbn. now rewrite app_nil_r.
  - cbn [ticks List.length repeat]. cbn [fst snd] in Hr.
    destruct (tick_on_head env now latency r st log rest Ha Hq)
      as (T1 & _ & T3 & _ & T5).
    rewrite Hpost in T5.
    assert (Hthrows : throws (attempt env log r) = true).
    { unfold attempt. rewrite Hpost.
      now destruct (resume_not_delivered r Hr) as [e ->]. }
    rewrite Hthrows in T1.
    destruct (IH _ T3 T1) as (I1 & I2).
    rewrite I1, I2, T5, <- app_assoc. split; reflexivity.
Qed.

Lemma retries_resend_same_message_witness :
  postToSlack configured export_by_alice
  = PostFetches
      {| fetch_url := JStr "https://hooks.slack.example/services/T0";
         fetch_message :=
           JObj [("text",
                  JStr (String.concat nl
                          [message_line "Action" "Export";
                           message_line "Section" "N/A";
                           message_line "Display" "N/A";
                           message_line "Created By User" "alice";
                           message_line "Created Date" "N/A";
                           message_line "Delegate User" "N/A"]))] |}
  /\ Forall (fun p => delivered (snd (fst p)) = false)
       [(0, slack_down, 300); (1400, Rejected (FetchError "socket hang up"), 5000)]
  /\ awaiting (set_queue [export_by_alice] boot) = None
  /\ messageQueue (set_queue [export_by_alice] boot) = export_by_alice :: []
  /\ List.length
       (fetched
          (ticks configured
             [(0, slack_down, 300);
              (1400, Rejected (FetchError "socket hang up"), 5000)]
             (set_queue [export_by_alice] boot)))
     = 2%nat.
Proof.
  assert (Hp : postToSlack configured export_by_alice
               = PostFetches
                   {| fetch_url := JStr "https://hooks.slack.example/services/T0";
                      fetch_message :=
                        JObj [("text",
                               JStr (String.concat nl
                                       [message_line "Action" "Export";
                                        message_line "Section" "N/A";
                                        message_line "Display" "N/A";
                                        message_line "Created By User" "alice";
                                        message_line "Created Date" "N/A";
                                        message_line "Delegate User" "N/A"]))] |})
    by reflexivity.
  assert (Hall : Forall (fun p => delivered (snd (fst p)) = false)
                   [(0, slack_down, 300);
                    (1400, Rejected (FetchError "socket hang up"), 5000)])
    by (repeat constructor).
  assert (Ha : awaiting (set_queue [export_by_alice] boot) = None) by reflexivity.
  assert (Hq : messageQueue (set_queue [export_by_alice] boot)
               = export_by_alice :: []) by reflexivity.
  refine (conj Hp (conj Hall (conj Ha (conj Hq _)))).
  rewrite (proj1 (retries_resend_same_message configured _ _ _ _ _
                    Hp Hall Ha Hq)).
  reflexivity.
Defined.

(** X11.  Ticks on an empty queue do nothing that can be seen: the queue
    stays empty, nothing is written to the console, no record is attempted
    and no fetch is made; only the timer is set again. *)
Theorem idle_ticks_are_silent
    (env : Env) (plan : list (Z * FetchResult * Z)) (st : State) :
  awaiting st = None -> messageQueue st = [] ->
  messageQueue (ticks env plan st) = []
  /\ console (ticks env plan st) = console st
  /\ attempted (ticks env plan st) = attempted st
  /\ fetched (ticks env plan st) = fetched st
  /\ awaiting (ticks env plan st) = None.
Proof.
  revert st. induction plan as [|[[now r] latency] plan IH]; intros st Ha Hq.
  - cbn. now repeat split.
  - cbn [ticks]. rewrite (tick_on_empty_queue env now latency r st Ha Hq).
    destruct (IH (setTimeout_processQueue now (set_timer None st)) Ha Hq)
      as (I1 & I2 & I3 & I4 & I5).
    rewrite I1, I2, I3, I4, I5. now repeat split.
Qed.

Lemma idle_ticks_are_silent_witness :
  awaiting (listen configured 0) = None
  /\ messageQueue (listen configured 0) = []
  /\ console (ticks configured [(1100, slack_ok, 0); (2200, slack_ok, 0)]
                (listen configured 0))
     = [(LLog, "Salesforce Audit Log Service listening on port 5000")]
  /\ fetched (ticks configured [(1100, slack_ok, 0); (2200, slack_ok, 0)]
                (listen configured 0))
     = [].
Proof.
  assert (Ha : awaiting (listen configured 0) = None) by reflexivity.
  assert (Hq : messageQueue (listen configured 0) = []) by reflexivity.
  refine (conj Ha (conj Hq _)).
  destruct (idle_ticks_are_silent configured
              [(1100, slack_ok, 0); (2200, slack_ok, 0)] _ Ha Hq)
    as (_ & H2 & _ & H4 & _).
  exact (conj H2 H4).
Defined.

(** ** The pace of the worker and where it posts *)

(** When [processQueue] returns or is suspended, the timer is either not
    set or set a whole delay after the time of entry. *)
Lemma processQueue_timer (env : Env) (now : Z) (st : State) :
  timer (processQueue env now st) = None
  \/ timer (processQueue env now st) = Some (now + THROTTLE_DELAY_MS).
Proof.
  destruct (messageQueue st) as [|log rest] eqn:Hq.
  - right. now rewrite (processQueue_on_empty env now st Hq).
  - rewrite (processQueue_on_head env now st log rest Hq).
    destruct (postToSlack env log) as [lines|e|call].
    + right.
      match goal with
      | |- timer (processQueue_settled ?t ?l ?p ?s) = _ =>
          destruct (settled_fields t l p s) as (_ & H2 & _); exact H2
      end.
    + right.
      match goal with
      | |- timer (processQueue_settled ?t ?l ?p ?s) = _ =>
          destruct (settled_fields t l p s) as (_ & H2 & _); exact H2
      end.
    + left. reflexivity.
Qed.

(** X7.  Two entries of the worker are never less than
    [THROTTLE_DELAY_MS] apart, so no more than one record is attempted per
    1100 ms: if the timer fires at [t1], then whatever requests and fetch
    answers follow (none of them earlier than [t1]), the timer cannot fire
    again before [t1 + THROTTLE_DELAY_MS]. *)
Theorem worker_entries_are_throttled
    (env : Env) (t1 t2 : Z) (trace : list (Z * Event)) (st st1 st2 st3 : State) :
  step env t1 Timer st = Some st1 ->
  Forall (fun e => snd e <> Timer /\ t1 <= fst e) trace ->
  run env trace st1 = Some st2 ->
  step env t2 Timer st2 = Some st3 ->
  t1 + THROTTLE_DELAY_MS <= t2.
Proof.
  intros Hfirst Hall Hrun Hnext.
  assert (J1 : forall due, timer st1 = Some due -> t1 + THROTTLE_DELAY_MS <= due).
  { cbn [step] in Hfirst. destruct (timer st) as [due0|]; [|discriminate].
    destruct (due0 <=? t1); [|discriminate]. injection Hfirst as <-.
    intros due Hdue.
    destruct (processQueue_timer env t1 st) as [Hn | Hs]; rewrite Hdue in *;
      [discriminate|]. injection Hs as ->. lia. }
  clear Hfirst.
  assert (J2 : forall due, timer st2 = Some due -> t1 + THROTTLE_DELAY_MS <= due).
  { revert st1 Hrun J1.
    induction Hall as [|[now ev] trace [Hev Hnow] _ IH]; intros st1 Hrun J1.
    - cbn in Hrun. now injection Hrun as <-.
    - cbn [run] in Hrun. cbn [fst snd] in Hev, Hnow.
      destruct (step env now ev st1) as [st1'|] eqn:Hstep; [|discriminate].
      apply (IH st1' Hrun). intros due Hdue.
      destruct ev as [body| |r]; cbn [step] in Hstep.
      + injection Hstep as <-.
        destruct (post_keeps_worker_state env body st1) as (K1 & _).
        rewrite K1 in Hdue. now apply J1.
      + contradiction.
      + destruct (awaiting st1) as [log|] eqn:Ha; [|discriminate].
        injection Hstep as <-.
        destruct (processQueue_resume_fields now r st1 log Ha) as (_ & R2 & _).
        rewrite R2 in Hdue. injection Hdue as <-. lia. }
  cbn [step] in Hnext. destruct (timer st2) as [due|] eqn:Hdue; [|discriminate].
  destruct (due <=? t2) eqn:Hle; [|discriminate].
  specialize (J2 due eq_refl). lia.
Qed.

Lemma worker_entries_are_throttled_witness :
  exists st1 st2 st3,
    step configured 1100 Timer
      (set_queue [export_by_alice; login_by_bob] (listen configured 0))
    = Some st1
    /\ Forall (fun e => snd e <> Timer /\ 1100 <= fst e)
         [(1150, Request (request_body "S3CR3T" [delete_by_carol]));
          (1300, Settled slack_ok)]
    /\ run configured
         [(1150, Request (request_body "S3CR3T" [delete_by_carol]));
          (1300, Settled slack_ok)] st1
       = Some st2
    /\ step configured 2400 Timer st2 = Some st3
    /\ 1100 + THROTTLE_DELAY_MS <= 2400.
Proof.
  do 3 eexists.
  assert (H1 : step configured 1100 Timer
                 (set_queue [export_by_alice; login_by_bob] (listen configured 0))
               = Some (processQueue configured 1100
                         (set_queue [export_by_alice; login_by_bob]
                            (listen configured 0)))) by reflexivity.
  assert (H2 : Forall (fun e => snd e <> Timer /\ 1100 <= fst e)
                 [(1150, Request (request_body "S3CR3T" [delete_by_carol]));
                  (1300, Settled slack_ok)]).
  { repeat constructor; cbn; try discriminate; lia. }
  assert (H3 : run configured
                 [(1150, Request (request_body "S3CR3T" [delete_by_carol]));
                  (1300, Settled slack_ok)]
                 (processQueue configured 1100
                    (set_queue [export_by_alice; login_by_bob] (listen configured 0)))
               = Some
                   (processQueue_resume 1300 slack_ok
                      (fst (post_sfdc_audit_log configured
                              (request_body "S3CR3T" [delete_by_carol])
                              (processQueue configured 1100
                                 (set_queue [export_by_alice; login_by_bob]
                                    (listen configured 0)))))))
    by reflexivity.
  assert (H4 : step configured 2400 Timer
                 (processQueue_resume 1300 slack_ok
                    (fst (post_sfdc_audit_log configured
                            (request_body "S3CR3T" [delete_by_carol])
                            (processQueue configured 1100
                               (set_queue [export_by_alice; login_by_bob]
                                  (listen configured 0))))))
               = Some
                   (processQueue configured 2400
                      (processQueue_resume 1300 slack_ok
                         (fst (post_sfdc_audit_log configured
                                 (request_body "S3CR3T" [delete_by_carol])
                                 (processQueue configured 1100
                                    (set_queue [export_by_alice; login_by_bob]
                                       (listen configured 0))))))))
    by reflexivity.
  exact (conj H1 (conj H2 (conj H3 (conj H4
           (worker_entries_are_throttled configured 1100 2400 _ _ _ _ _
              H1 H2 H3 H4))))).
Defined.

(** What [postToSlack] hands to [fetch]. *)
Lemma postToSlack_fetch_call (env : Env) (log : JsVal) (call : FetchCall) :
  postToSlack env log = PostFetches call ->
  webhook_set env = true
  /\ fetch_url call = env_value (SLACK_WEBHOOK_URL env)
  /\ exists text,
       slack_text log = Normal text
       /\ fetch_message call = JObj [("text", JStr text)].
Proof.
  unfold postToSlack, webhook_set, slack_message.
  destruct (ToBoolean (env_value (SLACK_WEBHOOK_URL env))); cbn [negb];
    [|discriminate].
  destruct (slack_text log) as [text|e]; cbn [bind]; [|discriminate].
  intros [= <-]. split; [reflexivity|]. split; [reflexivity|].
  exists text. now split.
Qed.

Lemma fetch_of_attempted_mono (env : Env) (st st' : State) (call : FetchCall) :
  (forall log, In log (attempted st) -> In log (attempted st')) ->
  fetch_of_attempted env st call -> fetch_of_attempted env st' call.
Proof.
  intros Hmono (Hw & Hu & log & text & Hin & Ht & Hm).
  split; [exact Hw|]. split; [exact Hu|]. exists log, text. auto.
Qed.

Lemma step_keeps_fetches (env : Env) (now : Z) (ev : Event) (st st' : State) :
  worker_state_ok st = true ->
  Forall (fetch_of_attempted env st) (fetched st) ->
  step env now ev st = Some st' ->
  Forall (fetch_of_attempted env st') (fetched st').
Proof.
  intros Hok Hall Hstep. destruct ev as [body| |r]; cbn [step] in Hstep.
  - injection Hstep as <-.
    destruct (post_keeps_worker_state env body st) as (_ & _ & K3 & K4).
    rewrite K4. eapply Forall_impl; [|exact Hall].
    intros call. apply fetch_of_attempted_mono. now rewrite K3.
  - destruct (worker_state_ok_cases st Hok) as [(Ha & due & Ht) | (Ht & _)];
      [|now rewrite Ht in Hstep].
    rewrite Ht in Hstep. destruct (due <=? now); [|discriminate].
    injection Hstep as <-.
    destruct (messageQueue st) as [|log rest] eqn:Hq.
    + now rewrite (processQueue_on_empty env now st Hq).
    + destruct (processQueue_head_fields env now st log rest Ha Hq) as (F0 & Hf).
      assert (Hold : Forall (fetch_of_attempted env (processQueue env now st))
                       (fetched st)).
      { eapply Forall_impl; [|exact Hall].
        intros call. apply fetch_of_attempted_mono.
        intros l Hl. rewrite F0. apply in_or_app. now left. }
      destruct (postToSlack env log) as [lines|e|call] eqn:Hp;
        destruct Hf as (_ & _ & _ & F4); rewrite F4; [exact Hold|exact Hold|].
      apply Forall_app. split; [exact Hold|]. constructor; [|constructor].
      destruct (postToSlack_fetch_call env log call Hp) as (Hw & Hu & text & Et & Hm).
      split; [exact Hw|]. split; [exact Hu|]. exists log, text.
      split; [|now split]. rewrite F0. apply in_or_app. right. now left.
  - destruct (awaiting st) as [log|] eqn:Ha; [|discriminate].
    injection Hstep as <-.
    destruct (processQueue_resume_fields now r st log Ha) as (_ & _ & _ & R4 & R5).
    rewrite R5. eapply Forall_impl; [|exact Hall].
    intros call. apply fetch_of_attempted_mono. now rewrite R4.
Qed.

(** X8.  In every run from the start of the app, every fetch the worker
    has made went to the configured webhook address, with the webhook set,
    and carried the message with the one member [text] built from a record
    the worker had taken from the queue.  Nothing is posted anywhere else,
    and nothing is posted while the webhook address is missing. *)
Theorem fetches_go_to_the_webhook
    (env : Env) (t0 : Z) (trace : list (Z * Event)) (st : State) :
  run env trace (listen env t0) = Some st ->
  Forall (fetch_of_attempted env st) (fetched st).
Proof.
  assert (Hgen : forall trace st0 st',
             worker_state_ok st0 = true ->
             Forall (fetch_of_attempted env st0) (fetched st0) ->
             run env trace st0 = Some st' ->
             Forall (fetch_of_attempted env st') (fetched st')).
  { clear trace st. induction trace as [|[now ev] trace IH];
      intros st0 st' Hok Hall Hrun.
    - cbn in Hrun. now injection Hrun as <-.
    - cbn [run] in Hrun. destruct (step env now ev st0) as [st1|] eqn:Hstep;
        [|discriminate].
      apply (IH st1 st'); [| |exact Hrun].
      + exact (step_keeps_worker_state_ok env now ev st0 st1 Hok Hstep).
      + exact (step_keeps_fetches env now ev st0 st1 Hok Hall Hstep). }
  apply Hgen; [apply listen_worker_state_ok|].
  rewrite (proj2 (listen_pending env t0)). constructor.
Qed.

Lemma fetches_go_to_the_webhook_witness :
  run configured sample_trace (listen configured 0) = Some sample_outcome
  /\ List.length (fetched sample_outcome) = 2%nat
  /\ Forall (fetch_of_attempted configured sample_outcome) (fetched sample_outcome).
Proof.
  assert (Hrun : run configured sample_trace (listen configured 0)
                 = Some sample_outcome) by (vm_compute; reflexivity).
  refine (conj Hrun (conj _ _)); [reflexivity|].
  exact (fetches_go_to_the_webhook configured 0 _ _ Hrun).
Defined.

(** X13.  Serving requests never disturbs the worker: however many
    requests are served and whatever they carry, the timer, the pending
    fetch and the record of what the worker attempted and posted are as
    they were, and what was in the queue is still there, in front and in
    the same order. *)
Theorem requests_do_not_disturb_worker
    (env : Env) (bodies : list JsVal) (st : State) :
  timer (posts env bodies st) = timer st
  /\ awaiting (posts env bodies st) = awaiting st
  /\ attempted (posts env bodies st) = attempted st
  /\ fetched (posts env bodies st) = fetched st
  /\ firstn (List.length (messageQueue st)) (messageQueue (posts env bodies st))
     = messageQueue st.
Proof.
  revert st. induction bodies as [|body bodies IH]; intros st.
  - cbn. rewrite firstn_all. now repeat split.
  - unfold posts in *. cbn [fold_left].
    destruct (IH (fst (post_sfdc_audit_log env body st))) as (I1 & I2 & I3 & I4 & I5).
    destruct (post_keeps_worker_state env body st) as (K1 & K2 & K3 & K4).
    rewrite I1, I2, I3, I4, K1, K2, K3, K4.
    repeat (split; [reflexivity|]).
    rewrite post_appends_queued in I5.
    apply (f_equal (firstn (List.length (messageQueue st)))) in I5.
    rewrite firstn_firstn, length_app in I5.
    replace (Nat.min (List.length (messageQueue st))
               (List.length (messageQueue st) + List.length (queued env body)))
      with (List.length (messageQueue st)) in I5 by lia.
    rewrite I5, firstn_app, firstn_all, Nat.sub_diag. cbn.
    now rewrite app_nil_r.
Qed.
